(** * storyboard_tool.js: a shallow embedding and its verified properties

    The script turns research text into a storyboard by one call to a
    chat-completion service and writes the derived artifacts.  This file
    embeds the script function by function:

    - JavaScript strings are sequences of UTF-16 code units ([list N]);
    - JSON values are an inductive type, numbers are IEEE binary64 floats;
    - exceptions, [process.exit], the file system, the console and the
      network are threaded through a state-and-outcome monad [M];
    - built-ins of the host (JSON.parse, js-yaml, path.join, fetch, number
      formatting, the Unicode case table, the paths the file system
      refuses) are the fields of a [Runtime] class: every theorem holds
      for every runtime. *)

From Stdlib Require Import Floats NArith ZArith String Ascii DecimalString.
From stdpp Require Import base option list gmap.

#[local] Set Warnings "-clear-no-such-hyp".

Local Open Scope N_scope.

(** ** JavaScript strings *)

Abbreviation jsstring := (list N).

(** Source literals are UTF-8 text; [js] turns the bytes of a literal into
    UTF-16 code units (a surrogate pair above U+FFFF). *)
Fixpoint utf16 (bs : list N) : jsstring :=
  match bs with
  | [] => []
  | b :: r =>
    if b <? 0x80 then b :: utf16 r
    else if b <? 0xE0 then
      match r with
      | b1 :: r1 => (N.land b 0x1F * 64 + N.land b1 0x3F) :: utf16 r1
      | _ => [0xFFFD]
      end
    else if b <? 0xF0 then
      match r with
      | b1 :: b2 :: r2 =>
        (N.land b 0x0F * 4096 + N.land b1 0x3F * 64 + N.land b2 0x3F) :: utf16 r2
      | _ => [0xFFFD]
      end
    else
      match r with
      | b1 :: b2 :: b3 :: r3 =>
        let cp := N.land b 0x07 * 262144 + N.land b1 0x3F * 4096
                  + N.land b2 0x3F * 64 + N.land b3 0x3F in
        let v := cp - 0x10000 in
        (0xD800 + v / 1024) :: (0xDC00 + v mod 1024) :: utf16 r3
      | _ => [0xFFFD]
      end
  end.

Definition js (s : string) : jsstring :=
  utf16 (List.map N_of_ascii (list_ascii_of_string s)).

Definition nl : jsstring := [10].

(** [s.startsWith(pat)], returning what follows the prefix. *)
Fixpoint strip_prefix (pat s : jsstring) : option jsstring :=
  match pat, s with
  | [], _ => Some s
  | p :: pat', c :: s' => if p =? c then strip_prefix pat' s' else None
  | _ :: _, [] => None
  end.

(** The first occurrence of [pat] in [s] (as [indexOf] finds it): the text
    before it and the text after it. *)
Fixpoint split_at_first (pat s : jsstring) : option (jsstring * jsstring) :=
  match strip_prefix pat s with
  | Some rest => Some ([], rest)
  | None =>
    match s with
    | [] => None
    | c :: s' =>
      match split_at_first pat s' with
      | Some (pre, post) => Some (c :: pre, post)
      | None => None
      end
    end
  end.

Definition includes (pat s : jsstring) : bool :=
  match split_at_first pat s with Some _ => true | None => false end.

(** Number of positions of [s] at which [pat] starts. *)
Fixpoint occurrences (pat s : jsstring) : nat :=
  ((match strip_prefix pat s with Some _ => 1 | None => 0 end) +
   (match s with [] => 0 | _ :: s' => occurrences pat s' end))%nat.

(** WhiteSpace and LineTerminator code units, as [String.prototype.trim]
    removes them. *)
Definition is_trim_space (c : N) : bool :=
  ((9 <=? c) && (c <=? 13)) || (c =? 32) || (c =? 0xA0) || (c =? 0x1680)
  || ((0x2000 <=? c) && (c <=? 0x200A)) || (c =? 0x2028) || (c =? 0x2029)
  || (c =? 0x202F) || (c =? 0x205F) || (c =? 0x3000) || (c =? 0xFEFF).

Fixpoint trimStart (s : jsstring) : jsstring :=
  match s with
  | c :: s' => if is_trim_space c then trimStart s' else s
  | [] => []
  end.

Definition trimEnd (s : jsstring) : jsstring := rev (trimStart (rev s)).

Definition trim (s : jsstring) : jsstring := trimEnd (trimStart s).

(** ** Strings as UTF-8 *)

Definition is_high_surrogate (c : N) : bool := (0xD800 <=? c) && (c <=? 0xDBFF).
Definition is_low_surrogate (c : N) : bool := (0xDC00 <=? c) && (c <=? 0xDFFF).

(** The text that the UTF-8 encoding of [s] decodes to: the encoder
    ([Buffer.from(s, 'utf8')], as [fs.writeFileSync] applies it to a
    string) writes U+FFFD for every surrogate that is not part of a pair.
    This is [String.prototype.toWellFormed]. *)
Fixpoint toWellFormed (s : jsstring) : jsstring :=
  match s with
  | [] => []
  | c :: rest =>
    if is_high_surrogate c then
      match rest with
      | d :: rest' =>
        if is_low_surrogate d then c :: d :: toWellFormed rest'
        else 0xFFFD :: toWellFormed rest
      | [] => [0xFFFD]
      end
    else if is_low_surrogate c then 0xFFFD :: toWellFormed rest
    else c :: toWellFormed rest
  end.

(** [String.prototype.isWellFormed]: no surrogate stands alone. *)
Fixpoint isWellFormed (s : jsstring) : bool :=
  match s with
  | [] => true
  | c :: rest =>
    if is_high_surrogate c then
      match rest with
      | d :: rest' => is_low_surrogate d && isWellFormed rest'
      | [] => false
      end
    else negb (is_low_surrogate c) && isWellFormed rest
  end.

(** ** String.prototype.replace with a string pattern *)

(** GetSubstitution for a match without captures: [$$], [$&], [$`] and
    [$'] are expanded, every other code unit stands for itself ([$1] and
    [$<] stay literal when there are no captures). *)
Fixpoint GetSubstitution (matched preceding following templ : jsstring) : jsstring :=
  match templ with
  | [] => []
  | c :: rest =>
    if c =? 36 then
      match rest with
      | d :: rest' =>
        if d =? 36 then 36 :: GetSubstitution matched preceding following rest'
        else if d =? 38 then matched ++ GetSubstitution matched preceding following rest'
        else if d =? 96 then preceding ++ GetSubstitution matched preceding following rest'
        else if d =? 39 then following ++ GetSubstitution matched preceding following rest'
        else c :: GetSubstitution matched preceding following rest
      | [] => [c]
      end
    else c :: GetSubstitution matched preceding following rest
  end.

(** [s.replace(pat, repl)] for strings [pat] and [repl]: the first
    occurrence only; [s] itself when [pat] does not occur. *)
Definition replace_string (s pat repl : jsstring) : jsstring :=
  match split_at_first pat s with
  | Some (preceding, following) =>
    preceding ++ GetSubstitution pat preceding following repl ++ following
  | None => s
  end.

(** ** The master prompt (lines 60-90) *)

Definition PLACEHOLDER : jsstring := js "<<PASTE FULL RESEARCH TEXT HERE>>".

Fixpoint join (sep : jsstring) (parts : list jsstring) : jsstring :=
  match parts with
  | [] => []
  | [p] => p
  | p :: ps => p ++ sep ++ join sep ps
  end.

Definition MASTER_PROMPT_lines : list jsstring := List.map js [
  "You are “Storyboard‑AI”, a film director who outputs YAML‑based storyboards for Remotion.";
  "Input research (verbatim, multi‑thousand words) is delimited by <<<RESEARCH>>> … <<<END>>>.";
  "Tasks:";
  "";
  "1. **Narrative arc** – Decide Act I (hook / problem), Act II (analysis / tension), Act III (resolution / call‑to‑action).";
  "2. **Slide breakdown** – Partition the story into numbered scenes (≈15‑45 sec each).";
  "3. **For every slide**, output:";
  "   • 'id' (kebab‑case), 'title', 'durationSec'.";
  "   • 'elements[]' ordered by on‑screen appearance. Each element:";
  "     ‑ 'kind' (heading | paragraph | bulletList | image | videoClip | chart | code | shape)";
  "     ‑ 'content' or 'src'";
  "     ‑ 'animationIn' / 'animationOut' (fade, wipe‑right, scale‑up, spring‑fly‑in, etc.)";
  "     ‑ 'startSec', optional 'endSec'.";
  "   • 'narration' – conversational, 1st‑person plural, ≤ 80 words.";
  "   • 'subtitles' – identical to narration or condensed captions.";
  "   • 'audioTracks': backgroundMusic (file name or “none”); sfx[] aligned to seconds.";
  "   • 'transitionToNext' – cut | cross‑fade | push‑left | custom.";
  "   • 'directorNotes' – free‑text with: pacing hints, visual mood, colour cues, relationship to previous/next slide, which element deserves emphasis, suggested FPS if divergent from default, volume ducking hints, mention “linger” or “skip quickly” as needed.";
  "";
  "4. Emit two artifacts with *identical* data:";
  "   a) 'storyboard.yaml' – easy for humans; b) 'storyboard.json' – camelCase keys for machines.";
  "";
  "5. After the YAML & JSON blocks, output an **exec summary table** listing slide id, title and durationSec to help editors spot timing at a glance.";
  "";
  "Remember: No Remotion code – just the data.";
  "";
  "<<<RESEARCH>>>";
  "<<PASTE FULL RESEARCH TEXT HERE>>";
  "<<<END>>>"
]%string.

Definition MASTER_PROMPT : jsstring := join nl MASTER_PROMPT_lines.

(** ** The regular expressions of the script *)

Definition FENCE : jsstring := js "```".

(** [[\s\S]+?] followed by [close]: one code unit is consumed, then
    [close] is tried, and on failure one more code unit is consumed. *)
Fixpoint lazy_until (close s : jsstring) : option (jsstring * jsstring) :=
  match s with
  | [] => None
  | c :: s' =>
    match strip_prefix close s' with
    | Some rest => Some ([c], rest)
    | None =>
      match lazy_until close s' with
      | Some (body, rest) => Some (c :: body, rest)
      | None => None
      end
    end
  end.

(** A match of [/```tag\n([\s\S]+?)```/] that starts at the head of [s]:
    the capture and the text after the match. *)
Definition fence_here (tag s : jsstring) : option (jsstring * jsstring) :=
  match strip_prefix (FENCE ++ tag ++ nl) s with
  | Some r => lazy_until FENCE r
  | None => None
  end.

(** The result of [String.prototype.match]: [index], [m[0]] and [m[1]]. *)
Record match_result := {
  index : nat;
  m0 : jsstring;
  m1 : jsstring
}.

(** [s.match(/```tag\n([\s\S]+?)```/)]: the leftmost start position that
    matches. *)
Fixpoint match_fence (tag s : jsstring) : option match_result :=
  match fence_here tag s with
  | Some (cap, _) =>
    Some {| index := 0; m0 := FENCE ++ tag ++ nl ++ cap ++ FENCE; m1 := cap |}
  | None =>
    match s with
    | [] => None
    | _ :: s' =>
      match match_fence tag s' with
      | Some r => Some {| index := S (index r); m0 := m0 r; m1 := m1 r |}
      | None => None
      end
    end
  end.

Definition is_alpha (c : N) : bool :=
  ((97 <=? c) && (c <=? 122)) || ((65 <=? c) && (c <=? 90)).

Definition is_alnum (c : N) : bool :=
  is_alpha c || ((48 <=? c) && (c <=? 57)).

(** What [.] does not match (no [s] flag). *)
Definition is_line_terminator (c : N) : bool :=
  (c =? 10) || (c =? 13) || (c =? 0x2028) || (c =? 0x2029).

(** The rest of [[^a-zA-Z0-9]+(.)] once one separator is consumed: the run
    is extended first (greedy) and given back unit by unit until [.]
    matches.  Returns the captured unit and the number of units consumed. *)
Fixpoint sep_run_dot (s : jsstring) : option (N * nat) :=
  match s with
  | [] => None
  | c :: s' =>
    match (if is_alnum c then None else sep_run_dot s') with
    | Some (chr, n) => Some (chr, S n)
    | None => if is_line_terminator c then None else Some (c, 1%nat)
    end
  end.

(** A match of [/[^a-zA-Z0-9]+(.)/] at the head of [s]: the captured unit
    and the length of the match. *)
Definition sep_dot_here (s : jsstring) : option (N * nat) :=
  match s with
  | c :: s' =>
    if is_alnum c then None
    else match sep_run_dot s' with
         | Some (chr, n) => Some (chr, S n)
         | None => None
         end
  | [] => None
  end.

(** [/^[^a-zA-Z]*/] replaced by the empty string. *)
Fixpoint strip_leading_non_letters (s : jsstring) : jsstring :=
  match s with
  | c :: s' => if is_alpha c then s else strip_leading_non_letters s'
  | [] => []
  end.

(** ** JSON values, exceptions and outcomes *)

#[local] Set Warnings "-register-all".

Inductive value :=
  | VUndefined
  | VNull
  | VBool (b : bool)
  | VNum (x : float)
  | VStr (s : jsstring)
  | VArr (items : list value)
  | VObj (props : list (jsstring * value)).

(** What the script throws.  [Error] is [new Error(message)]; a
    [TypeError] of the engine carries no message here (its wording is the
    engine's); [SyntaxError] is what JSON.parse throws; [SystemError] is an
    error of a file-system or network call. *)
Inductive exn :=
  | Error (message : jsstring)
  | TypeError
  | SyntaxError (message : jsstring)
  | SystemError (code : jsstring).

(** A call returns, throws, or ends the process ([process.exit]). *)
Inductive outcome (A : Type) :=
  | Ok (a : A)
  | Throw (e : exn)
  | Exit (code : Z).
Arguments Ok {A} a.
Arguments Throw {A} e.
Arguments Exit {A} code.

#[global] Instance outcome_ret : MRet outcome := fun A a => Ok a.
#[global] Instance outcome_bind : MBind outcome := fun A B f o =>
  match o with
  | Ok a => f a
  | Throw e => Throw e
  | Exit c => Exit c
  end.

(** The errors of the script under the names the specification gives them. *)
Definition ConfigurationError : exn :=
  Error (js "OPENAI_API_KEY environment variable is not set").
Definition ServiceError (status text : jsstring) : exn :=
  Error (js "OpenAI API error: " ++ status ++ js " – " ++ text).
Definition ExtractionError_YAML : exn :=
  Error (js "Unable to find YAML block in response").
Definition ExtractionError_JSON : exn :=
  Error (js "Unable to find JSON block in response").
Definition ParseError (message : jsstring) : exn :=
  Error (js "Invalid JSON returned by OpenAI: " ++ message).

(** ** The host runtime *)

Record request := {
  url : jsstring;
  method : jsstring;
  headers : list (jsstring * jsstring);
  body : jsstring
}.

(** The promise [fetch] returns: rejected, or resolved with a response
    ([response.ok], [response.status] and the body text). *)
Inductive fetch_outcome :=
  | Rejected (e : exn)
  | Response (ok : bool) (status : float) (text : jsstring).

(** What [yaml.load] returns.  YAML is richer than JSON: besides a tree
    ([Tree]) the loader can return a structure on which
    [JSON.parse(JSON.stringify(.))] throws ([NotJSON], with the exception
    thrown): a structure that holds itself, which an alias to an enclosing
    node builds (the document [&a [*a]]; JSON.stringify throws a
    TypeError), or a function of the full schema of js-yaml 3
    (JSON.stringify returns [undefined], on which JSON.parse throws a
    SyntaxError).  Such a structure is an object or a function: it is
    truthy. *)
Inductive loaded :=
  | Tree (v : value)
  | NotJSON (e : exn).

(** The names of the files that [main] writes into the output directory
    itself (lines 362-363, 305 and 375). *)
Definition fixed_names : list jsstring :=
  [js "storyboard.yaml"; js "storyboard.json"; js "Video.tsx"; js "EXEC_SUMMARY.txt"].

(** Built-ins the script calls and that are not part of it.
    - [JSON_parse s] is [inl message] when JSON.parse throws a SyntaxError;
    - [yaml] is [None] when js-yaml is not installed (lines 45-51), and
      [yaml.load] is [inl] when it throws;
    - [JSON_normalise v] is [JSON.parse(JSON.stringify(v))], which does not
      throw on the tree-shaped values of [value];
    - [Number_toString] and [String_toNumber] are the conversions of
      numbers to and from strings, [toUpperCase] the Unicode case mapping,
      [path_join] is path.join, [fetch] the remote service;
    - [fs_open_error p] is the exception with which the file system
      refuses to open the path [p] for writing, if it does: ENOENT when the
      directory of [p] does not exist (the placeholder of a slide whose id
      is [a/b] lies in a directory [a] that nobody makes), ENAMETOOLONG, a
      TypeError for a path that holds a NUL, and so on;
    - [fs_normal]: the environment is a normal one for the files of
      [fixed_names], whose paths the reply of the service has no part in:
      the directory the script is given exists ([main] makes it first, line
      352) and such a file can be written in it.  Nothing is assumed about
      the other paths, those of the placeholders, which the reply decides. *)
Class Runtime : Type := {
  JSON_parse : jsstring -> jsstring + value;
  JSON_stringify : value -> jsstring;
  JSON_normalise : value -> value;
  yaml : option (jsstring -> exn + loaded);
  Number_toString : float -> jsstring;
  String_toNumber : jsstring -> float;
  toUpperCase : jsstring -> jsstring;
  path_join : list jsstring -> jsstring;
  fetch : request -> fetch_outcome;
  fs_open_error : jsstring -> option exn;
  fs_normal : forall dir name,
    name ∈ fixed_names -> fs_open_error (path_join [dir; name]) = None
}.

(** ** The process state *)

Inductive event :=
  | log (message : jsstring)
  | warn (message : jsstring)
  | error (e : exn).

(** [files] maps a path to the text that a UTF-8 read of the file returns
    (a zero-byte file is the empty text); [dirs] are the directories made;
    [console] and [network] record the output and the requests sent, oldest
    first. *)
Record state := {
  argv : list jsstring;
  OPENAI_API_KEY : option jsstring;
  files : gmap jsstring jsstring;
  dirs : gset jsstring;
  console : list event;
  network : list request
}.

Definition M (A : Type) : Type := state -> outcome A * state.

#[global] Instance M_ret : MRet M := fun A a st => (Ok a, st).
#[global] Instance M_bind : MBind M := fun A B f m st =>
  match m st with
  | (Ok a, st') => f a st'
  | (Throw e, st') => (Throw e, st')
  | (Exit c, st') => (Exit c, st')
  end.

Definition lift {A} (o : outcome A) : M A := fun st => (o, st).
Definition throw {A} (e : exn) : M A := fun st => (Throw e, st).
Definition process_exit {A} (code : Z) : M A := fun st => (Exit code, st).

Definition emit (ev : event) : M unit := fun st =>
  (Ok tt, {| argv := argv st; OPENAI_API_KEY := OPENAI_API_KEY st;
             files := files st; dirs := dirs st;
             console := console st ++ [ev]; network := network st |}).
Definition console_log (msg : jsstring) : M unit := emit (log msg).
Definition console_warn (msg : jsstring) : M unit := emit (warn msg).
Definition console_error (e : exn) : M unit := emit (error e).

(** [fs.mkdirSync(p, { recursive: true })] *)
Definition mkdirSync (p : jsstring) : M unit := fun st =>
  (Ok tt, {| argv := argv st; OPENAI_API_KEY := OPENAI_API_KEY st;
             files := files st; dirs := {[ p ]} ∪ dirs st;
             console := console st; network := network st |}).

(** [fs.writeFileSync(p, data)] for a string [data] (an empty Buffer is
    the empty string): the call throws when the file system refuses the
    path, and the file then is what it was; otherwise the file holds the
    UTF-8 encoding of [data], which reads back as [toWellFormed data]. *)
Definition writeFileSync {rt : Runtime} (p data : jsstring) : M unit := fun st =>
  match fs_open_error p with
  | Some e => (Throw e, st)
  | None =>
    (Ok tt, {| argv := argv st; OPENAI_API_KEY := OPENAI_API_KEY st;
               files := <[ p := toWellFormed data ]> (files st); dirs := dirs st;
               console := console st; network := network st |})
  end.

(** [fs.readFileSync(p, 'utf8')] *)
Definition readFileSync (p : jsstring) : M jsstring := fun st =>
  match files st !! p with
  | Some data => (Ok data, st)
  | None => (Throw (SystemError (js "ENOENT")), st)
  end.

Definition process_argv : M (list jsstring) := fun st => (Ok (argv st), st).
Definition process_env_OPENAI_API_KEY : M (option jsstring) :=
  fun st => (Ok (OPENAI_API_KEY st), st).

(** ** Operators of the language on values *)

Definition nan : float := PrimFloat.div 0%float 0%float.

(** ToBoolean *)
Definition truthy (v : value) : bool :=
  match v with
  | VUndefined | VNull => false
  | VBool b => b
  | VNum x => negb (PrimFloat.is_nan x || PrimFloat.is_zero x)
  | VStr s => match s with [] => false | _ => true end
  | VArr _ | VObj _ => true
  end.

(** [a || b] *)
Definition or_else (a b : value) : value := if truthy a then a else b.

Fixpoint lookup_prop (k : jsstring) (props : list (jsstring * value)) : option value :=
  match props with
  | [] => None
  | (k', v) :: rest => if decide (k = k') then Some v else lookup_prop k rest
  end.

(** [v.k] for the property names the script reads (none of them is a
    property of a prototype, of an array or of a string): a TypeError on
    [undefined] and [null], the own property of an object, [undefined]
    otherwise. *)
Definition get (v : value) (k : jsstring) : outcome value :=
  match v with
  | VUndefined | VNull => Throw TypeError
  | VObj props => Ok (default VUndefined (lookup_prop k props))
  | _ => Ok VUndefined
  end.

(** [v?.k] *)
Definition get_opt (v : value) (k : jsstring) : outcome value :=
  match v with
  | VUndefined | VNull => Ok VUndefined
  | _ => get v k
  end.

(** [v[0]] *)
Definition get0 (v : value) : outcome value :=
  match v with
  | VUndefined | VNull => Throw TypeError
  | VArr items => Ok (default VUndefined (head items))
  | VStr s => Ok (match s with c :: _ => VStr [c] | [] => VUndefined end)
  | VObj props => Ok (default VUndefined (lookup_prop (js "0") props))
  | _ => Ok VUndefined
  end.

Definition nat_to_float (n : nat) : float :=
  PrimFloat.of_uint63 (Uint63.of_Z (Z.of_nat n)).

(** ** The script *)

Section Script.
Context {rt : Runtime}.

(** ToString.  An array is joined with commas ([null] and [undefined]
    items are empty); an object is ["[object Object]"] unless an own
    property [toString] hides the inherited method, which a JSON value
    cannot replace by a function: the conversion then throws. *)
Fixpoint ToString (v : value) : outcome jsstring :=
  match v with
  | VUndefined => Ok (js "undefined")
  | VNull => Ok (js "null")
  | VBool b => Ok (if b then js "true" else js "false")
  | VNum x => Ok (Number_toString x)
  | VStr s => Ok s
  | VArr items =>
    (fix join_items (l : list value) : outcome jsstring :=
       match l with
       | [] => Ok []
       | x :: rest =>
         a ← match x with VUndefined | VNull => Ok [] | _ => ToString x end;
         match rest with
         | [] => Ok a
         | _ => b ← join_items rest; Ok (a ++ js "," ++ b)
         end
       end) items
  | VObj props =>
    match lookup_prop (js "toString") props with
    | Some _ => Throw TypeError
    | None => Ok (js "[object Object]")
    end
  end.

(** ToPrimitive *)
Definition ToPrimitive (v : value) : outcome value :=
  match v with
  | VArr _ | VObj _ => s ← ToString v; Ok (VStr s)
  | _ => Ok v
  end.

(** ToNumber *)
Definition ToNumber (v : value) : outcome float :=
  match v with
  | VUndefined => Ok nan
  | VNull => Ok 0%float
  | VBool b => Ok (if b then 1%float else 0%float)
  | VNum x => Ok x
  | VStr s => Ok (String_toNumber s)
  | VArr _ | VObj _ => s ← ToString v; Ok (String_toNumber s)
  end.

(** [a + b] *)
Definition js_add (a b : value) : outcome value :=
  pa ← ToPrimitive a;
  pb ← ToPrimitive b;
  match pa, pb with
  | VStr _, _ | _, VStr _ =>
    sa ← ToString pa; sb ← ToString pb; Ok (VStr (sa ++ sb))
  | _, _ =>
    x ← ToNumber pa; y ← ToNumber pb; Ok (VNum (PrimFloat.add x y))
  end.

(** [a * b] *)
Definition js_mul (a b : value) : outcome value :=
  x ← ToNumber a; y ← ToNumber b; Ok (VNum (PrimFloat.mul x y)).

(** [a !== b]; two arrays or objects are never the same reference here. *)
Definition strict_neq (a b : value) : bool :=
  match a, b with
  | VUndefined, VUndefined | VNull, VNull => false
  | VBool x, VBool y => negb (eqb x y)
  | VNum x, VNum y => negb (PrimFloat.eqb x y)
  | VStr s, VStr t => negb (bool_decide (s = t))
  | _, _ => true
  end.

(** *** parseArgs (lines 97-115) *)

Definition usage : jsstring :=
  js "Usage: node storyboard_tool.js --input research.txt --output outDir".

(** The loop over [argv]: [input] and [output] start as [null] ([None]). *)
Fixpoint parseArgs_loop (args : list jsstring) (input output : option jsstring)
  : M (option jsstring * option jsstring) :=
  match args with
  | [] => mret (input, output)
  | arg :: rest =>
    match rest with
    | next :: rest' =>
      if bool_decide (arg = js "--input") then parseArgs_loop rest' (Some next) output
      else if bool_decide (arg = js "--output") then parseArgs_loop rest' input (Some next)
      else if bool_decide (arg = js "--help") || bool_decide (arg = js "-h")
      then console_log usage;; process_exit 0
      else parseArgs_loop rest input output
    | [] =>
      if bool_decide (arg = js "--help") || bool_decide (arg = js "-h")
      then console_log usage;; process_exit 0
      else mret (input, output)
    end
  end.

Definition parseArgs : M (jsstring * jsstring) :=
  all ← process_argv;
  '(input, output) ← parseArgs_loop (drop 2 all) None None;
  match input with
  | None | Some [] => throw (Error (js "Missing --input argument"))
  | Some input =>
    match output with
    | None | Some [] => throw (Error (js "Missing --output argument"))
    | Some output => mret (input, output)
    end
  end.

(** *** callOpenAI (lines 126-154) *)

Definition do_fetch (r : request) : M fetch_outcome := fun st =>
  (Ok (fetch r), {| argv := argv st; OPENAI_API_KEY := OPENAI_API_KEY st;
                    files := files st; dirs := dirs st;
                    console := console st; network := network st ++ [r] |}).

Definition chat_request (apiKey prompt : jsstring) : request :=
  {| url := js "https://api.openai.com/v1/chat/completions";
     method := js "POST";
     headers := [(js "Content-Type", js "application/json");
                 (js "Authorization", js "Bearer " ++ apiKey)];
     body := JSON_stringify (VObj [
       (js "model", VStr (js "gpt-4o"));
       (js "messages", VArr [VObj [(js "role", VStr (js "user"));
                                   (js "content", VStr prompt)]]);
       (js "temperature", VNum 0x1.3333333333333p-2%float)]) |}.

Definition callOpenAI (prompt : jsstring) : M value :=
  apiKey ← process_env_OPENAI_API_KEY;
  match apiKey with
  | None | Some [] => throw ConfigurationError
  | Some apiKey =>
    response ← do_fetch (chat_request apiKey prompt);
    match response with
    | Rejected e => throw e
    | Response ok status text =>
      if negb ok then throw (ServiceError (Number_toString status) text)
      else
        json ← match JSON_parse text with
               | inr v => mret v
               | inl message => throw (SyntaxError message)
               end;
        lift (choices ← get json (js "choices");
              choice ← get0 choices;
              message ← get choice (js "message");
              get message (js "content"))
    end
  end.

(** *** extractBlocks (lines 165-183) *)

Record blocks := {
  blocks_yaml : jsstring;
  blocks_json : jsstring;
  blocks_summary : jsstring
}.

(** [response] is whatever [message.content] was: [response.match] is a
    function only on a string. *)
Definition extractBlocks (response : value) : outcome blocks :=
  match response with
  | VStr response =>
    let yamlMatch := match_fence (js "yaml") response in
    let jsonMatch := match_fence (js "json") response in
    match yamlMatch with
    | None => Throw ExtractionError_YAML
    | Some yamlMatch =>
      match jsonMatch with
      | None => Throw ExtractionError_JSON
      | Some jsonMatch =>
        let summary :=
          trim (drop (index jsonMatch + length (m0 jsonMatch)) response) in
        Ok {| blocks_yaml := trim (m1 yamlMatch);
              blocks_json := trim (m1 jsonMatch);
              blocks_summary := summary |}
      end
    end
  | _ => Throw TypeError
  end.

(** *** validateStoryboard (lines 196-231) *)

(** Lines 197-206: js-yaml parses the YAML text; a failure is a warning
    (the error object printed after the message is not recorded), and
    [yamlObj] stays [null]. *)
Definition load_yaml (yamlStr : jsstring) : M loaded :=
  match yaml with
  | Some load =>
    match load yamlStr with
    | inr yamlObj => mret yamlObj
    | inl _ =>
      console_warn (js "[storyboard_tool] Failed to parse YAML:");; mret (Tree VNull)
    end
  | None =>
    console_warn (js "[storyboard_tool] YAML parsing disabled; skipping YAML structural check");;
    mret (Tree VNull)
  end.

(** Lines 207-212 *)
Definition parse_json (jsonStr : jsstring) : M value :=
  match JSON_parse jsonStr with
  | inr v => mret v
  | inl message => throw (ParseError message)
  end.

(** Lines 213-222.  Line 217 is not inside a [try]: what
    [JSON.parse(JSON.stringify(yamlObj))] throws, [validateStoryboard]
    throws. *)
Definition compare_yaml_json (yamlObj : loaded) (jsonObj : value) : M unit :=
  match yamlObj with
  | NotJSON e => throw e
  | Tree yamlObj =>
    if truthy yamlObj then
      let yamlAsJson := JSON_normalise yamlObj in
      let jsonCanonical := JSON_normalise jsonObj in
      if bool_decide (JSON_stringify yamlAsJson = JSON_stringify jsonCanonical)
      then mret tt
      else console_warn (js "[storyboard_tool] Warning: YAML and JSON differ after normalisation.")
    else mret tt
  end.

(** [slides.reduce((sum, s) => sum + (s.durationSec || 0), sum0)] *)
Fixpoint sum_durations (sum : value) (slides : list value) : outcome value :=
  match slides with
  | [] => Ok sum
  | s :: rest =>
    d ← get s (js "durationSec");
    sum' ← js_add sum (or_else d (VNum 0%float));
    sum_durations sum' rest
  end.

Definition duration_warning (declared total : jsstring) : jsstring :=
  js "[storyboard_tool] totalDurationSec (" ++ declared ++
  js ") does not match sum of slide durations (" ++ total ++ js ").".

(** Lines 223-229 *)
Definition check_durations (jsonObj : value) : M unit :=
  meta ← lift (get jsonObj (js "meta"));
  if truthy meta then
    slides ← lift (get jsonObj (js "slides"));
    match slides with
    | VArr items =>
      total ← lift (sum_durations (VNum 0%float) items);
      declared ← lift (get meta (js "totalDurationSec"));
      if truthy declared && strict_neq total declared then
        d ← lift (ToString declared);
        t ← lift (ToString total);
        console_warn (duration_warning d t)
      else mret tt
    | _ => mret tt
    end
  else mret tt.

Definition validateStoryboard (yamlStr jsonStr : jsstring) : M (loaded * value) :=
  yamlObj ← load_yaml yamlStr;
  jsonObj ← parse_json jsonStr;
  compare_yaml_json yamlObj jsonObj;;
  check_durations jsonObj;;
  mret (yamlObj, jsonObj).

(** *** camelCase (lines 318-323) *)

(** [.replace(/[^a-zA-Z0-9]+(.)/g, (_, chr) => chr.toUpperCase())]: the
    scan resumes after each match ([skip] units are still to be passed). *)
Fixpoint replace_separators (skip : nat) (s : jsstring) : jsstring :=
  match s with
  | [] => []
  | c :: s' =>
    match skip with
    | S k => replace_separators k s'
    | O =>
      match sep_dot_here s with
      | Some (chr, len) => toUpperCase [chr] ++ replace_separators (len - 1) s'
      | None => c :: replace_separators 0 s'
      end
    end
  end.

(** [.replace(/^(.)/, (m) => m.toUpperCase())] *)
Definition upper_first (s : jsstring) : jsstring :=
  match s with
  | c :: s' => if is_line_terminator c then s else toUpperCase [c] ++ s'
  | [] => []
  end.

Definition camelCase (str : jsstring) : jsstring :=
  upper_first (strip_leading_non_letters (replace_separators 0 str)).

(** [camelCase(videoId)] for a [videoId] of any type: [str.replace] is a
    function only on a string. *)
Definition camelCase_value (videoId : value) : outcome jsstring :=
  match videoId with
  | VStr str => Ok (camelCase str)
  | _ => Throw TypeError
  end.

(** *** writeVideoTsx (lines 243-308) *)

(** The text built by lines 255-303. *)
Definition tsx_text (component totalFrames fps width height : jsstring) : jsstring :=
  js "import React from 'react';" ++ nl ++
  js "import { Composition, Sequence, Audio, AbsoluteFill } from 'remotion';" ++ nl ++
  js "import storyboard from './storyboard.json';" ++ nl ++ nl ++
  js "// This file was auto‑generated by storyboard_tool.js." ++ nl ++
  js "// It defines a Remotion Composition whose id is based on storyboard.meta.videoId." ++ nl ++
  js "// Each slide becomes a Sequence; rendering of individual elements is left as TODOs." ++ nl ++ nl ++
  js "const Slide: React.FC<{ slide: any }> = ({ slide }) => {" ++ nl ++
  js "  // TODO: Render slide elements here. You can map slide.elements to your own" ++ nl ++
  js "  // custom components, apply animations based on startSec/endSec, and insert" ++ nl ++
  js "  // Audio components for narration, backgroundMusic and sfx." ++ nl ++
  js "  return (" ++ nl ++
  js "    <AbsoluteFill style={{ backgroundColor: 'white', color: 'black', justifyContent: 'center', alignItems: 'center' }}>" ++ nl ++
  js "      {/* Example placeholder: show slide title centered on screen */}" ++ nl ++
  js "      <h1>{slide.title}</h1>" ++ nl ++
  js "    </AbsoluteFill>" ++ nl ++
  js "  );" ++ nl ++
  js "};" ++ nl ++ nl ++
  js "const MainVideo: React.FC = () => {" ++ nl ++
  js "  let currentFrame = 0;" ++ nl ++
  js "  const sequences = storyboard.slides.map((slide: any, index: number) => {" ++ nl ++
  js "    const durationFrames = Math.round(slide.durationSec * storyboard.meta.defaultFps);" ++ nl ++
  js "    const from = currentFrame;" ++ nl ++
  js "    currentFrame += durationFrames;" ++ nl ++
  js "    return (" ++ nl ++
  js "      <Sequence key={slide.id} from={from} durationInFrames={durationFrames}>" ++ nl ++
  js "        <Slide slide={slide} />" ++ nl ++
  js "      </Sequence>" ++ nl ++
  js "    );" ++ nl ++
  js "  });" ++ nl ++
  js "  return (" ++ nl ++
  js "    <>" ++ nl ++
  js "      {sequences}" ++ nl ++
  js "    </>" ++ nl ++
  js "  );" ++ nl ++
  js "};" ++ nl ++ nl ++
  js "export const " ++ component ++ js ": React.FC = () => {" ++ nl ++
  js "  return (" ++ nl ++
  js "    <Composition" ++ nl ++
  js "      id={storyboard.meta.videoId}" ++ nl ++
  js "      component={MainVideo}" ++ nl ++
  js "      durationInFrames={" ++ totalFrames ++ js "}" ++ nl ++
  js "      fps={" ++ fps ++ js "}" ++ nl ++
  js "      width={" ++ width ++ js "}" ++ nl ++
  js "      height={" ++ height ++ js "}" ++ nl ++
  js "    />" ++ nl ++
  js "  );" ++ nl ++
  js "};" ++ nl ++ nl ++
  js "export default " ++ component ++ js ";" ++ nl.

(** Lines 249-303: the values read from [meta] and the text rendered
    from them. *)
Definition render_tsx (meta : value) : outcome jsstring :=
  defaultFps ← get meta (js "defaultFps");
  let fps := or_else defaultFps (VNum 30%float) in
  metaVideoId ← get meta (js "videoId");
  let videoId := or_else metaVideoId (VStr (js "generated-video")) in
  defaultResolution ← get meta (js "defaultResolution");
  w ← get_opt defaultResolution (js "width");
  let width := or_else w (VNum 1920%float) in
  h ← get_opt defaultResolution (js "height");
  let height := or_else h (VNum 1080%float) in
  totalDurationSec ← get meta (js "totalDurationSec");
  totalFrames ← js_mul (or_else totalDurationSec (VNum 0%float)) fps;
  component ← camelCase_value videoId;
  totalFrames ← ToString totalFrames;
  fps ← ToString fps;
  width ← ToString width;
  height ← ToString height;
  Ok (tsx_text component totalFrames fps width height).

Definition writeVideoTsx (storyboard : value) (outDir : jsstring) : M unit :=
  meta ← lift (get storyboard (js "meta"));
  if negb (truthy meta) then
    console_warn (js "[storyboard_tool] No meta field in storyboard; cannot generate Video.tsx")
  else
    tsx ← lift (render_tsx meta);
    let outPath := path_join [outDir; js "Video.tsx"] in
    writeFileSync outPath tsx;;
    console_log (js "[storyboard_tool] Wrote Remotion component to " ++ outPath).

(** *** createVoiceoverPlaceholders (lines 336-347) *)

Fixpoint forEach {A} (items : list A) (f : A -> M unit) : M unit :=
  match items with
  | [] => mret tt
  | x :: rest => f x;; forEach rest f
  end.

Definition voiceDir_of (outDir : jsstring) : jsstring :=
  path_join [outDir; js "public"; js "voiceovers"].

Definition createVoiceoverPlaceholders (storyboard : value) (outDir : jsstring) : M unit :=
  let voiceDir := voiceDir_of outDir in
  mkdirSync voiceDir;;
  slides ← lift (get storyboard (js "slides"));
  match slides with
  | VArr items =>
    forEach items (fun slide =>
      id ← lift (get slide (js "id"));
      id ← lift (ToString id);
      let filename := id ++ js ".mp3" in
      let fullPath := path_join [voiceDir; filename] in
      writeFileSync fullPath []);;
    console_log (js "[storyboard_tool] Wrote " ++
                 Number_toString (nat_to_float (length items)) ++
                 js " placeholder voice‑over files to " ++ voiceDir)
  | _ => throw TypeError
  end.

(** *** main (lines 349-380) *)

(** Lines 369-378: what [main] does with the validated structure. *)
(** Lines 373-378: [if (summary) { ... }]. *)
Definition write_summary (summary output : jsstring) : M unit :=
  match summary with
  | [] => mret tt
  | _ =>
    let summaryPath := path_join [output; js "EXEC_SUMMARY.txt"] in
    writeFileSync summaryPath (trim summary);;
    console_log (js "[storyboard_tool] Wrote execution summary to " ++ summaryPath)
  end.

(** Lines 369-378: what [main] does with the validated structure. *)
Definition emit_derived (jsonObj : value) (summary output : jsstring) : M unit :=
  writeVideoTsx jsonObj output;;
  createVoiceoverPlaceholders jsonObj output;;
  write_summary summary output.

(** Lines 362-366: the two block texts are written. *)
Definition write_serializations (yamlStr jsonStr output : jsstring) : M unit :=
  let yamlPath := path_join [output; js "storyboard.yaml"] in
  let jsonPath := path_join [output; js "storyboard.json"] in
  writeFileSync yamlPath yamlStr;;
  writeFileSync jsonPath jsonStr;;
  console_log (js "[storyboard_tool] Wrote storyboard.yaml and storyboard.json to " ++ output).

(** Lines 360-379: [main] from the reply of the service on. *)
Definition process_response (responseText : value) (output : jsstring) : M unit :=
  b ← lift (extractBlocks responseText);
  write_serializations (blocks_yaml b) (blocks_json b) output;;
  '(_, jsonObj) ← validateStoryboard (blocks_yaml b) (blocks_json b);
  emit_derived jsonObj (blocks_summary b) output;;
  console_log (js "[storyboard_tool] Done.").

(** Line 356: the prompt sent for a research text. *)
Definition compose_prompt (research : jsstring) : jsstring :=
  replace_string MASTER_PROMPT PLACEHOLDER research.

(** Lines 351-359: the reply of the service is obtained. *)
Definition obtain_response (input output : jsstring) : M value :=
  mkdirSync output;;
  research ← readFileSync input;
  let prompt := compose_prompt research in
  console_log (js "[storyboard_tool] Sending prompt to OpenAI...");;
  responseText ← callOpenAI prompt;
  console_log (js "[storyboard_tool] Received response from OpenAI");;
  mret responseText.

(** Lines 351-379: [main] once the arguments are known. *)
Definition pipeline (input output : jsstring) : M unit :=
  responseText ← obtain_response input output;
  process_response responseText output.

Definition main : M unit :=
  '(input, output) ← parseArgs;
  pipeline input output.

(** Lines 383-388: [main().catch(...)]. *)
Definition script : M unit := fun st =>
  match main st with
  | (Throw e, st') =>
    match console_error e st' with
    | (_, st'') => (Exit 1, st'')
    end
  | r => r
  end.

End Script.

(** ** Vocabulary of the properties *)

(** The template before and after the placeholder. *)
Definition PROMPT_PREFIX : jsstring :=
  join nl (take 27 MASTER_PROMPT_lines) ++ nl.
Definition PROMPT_SUFFIX : jsstring :=
  nl ++ join nl (drop 28 MASTER_PROMPT_lines).

(** Does [templ] hold one of the patterns [$$], [$&], [$`], [$'] that
    [replace] expands in a replacement string? *)
Fixpoint has_dollar_pattern (templ : jsstring) : bool :=
  match templ with
  | [] => false
  | c :: rest =>
    (if c =? 36 then
       match rest with
       | d :: _ => (d =? 36) || (d =? 38) || (d =? 96) || (d =? 39)
       | [] => false
       end
     else false) || has_dollar_pattern rest
  end.

(** An identifier of the generated TypeScript (ASCII): a letter, [_] or
    [$], then letters, digits, [_] or [$]. *)
Definition is_identifier_start (c : N) : bool :=
  is_alpha c || (c =? 95) || (c =? 36).
Definition is_identifier_part (c : N) : bool :=
  is_alnum c || (c =? 95) || (c =? 36).
Definition is_identifier (s : jsstring) : bool :=
  match s with
  | [] => false
  | c :: rest => is_identifier_start c && forallb is_identifier_part rest
  end.
Definition is_digit (c : N) : bool := (48 <=? c) && (c <=? 57).

(** Upper case of an ASCII code unit. *)
Definition ascii_upper (c : N) : N :=
  if (97 <=? c) && (c <=? 122) then c - 32 else c.

(** The opening marker of a fenced block. *)
Definition OPEN (tag : jsstring) : jsstring := FENCE ++ tag ++ nl.

(** [s] holds a fenced block tagged [tag]: an opening marker, a body that
    is not empty, a closing marker. *)
Definition fenced_block (tag s : jsstring) : Prop :=
  exists pre body post, body <> [] /\ s = pre ++ OPEN tag ++ body ++ FENCE ++ post.

(** The state after [evs] have been printed. *)
Definition logged (evs : list event) (st : state) : state :=
  {| argv := argv st; OPENAI_API_KEY := OPENAI_API_KEY st;
     files := files st; dirs := dirs st;
     console := console st ++ evs; network := network st |}.

(** What a run that reads nothing does to the state: the paths and texts
    of the calls of [writeFileSync] that succeeded (in order), directories
    made, lines printed. *)
Record effect := {
  written : list (jsstring * jsstring);
  made : list jsstring;
  printed : list event
}.

(** The files after the writes [ws]: each file holds the UTF-8 encoding
    of the text written to it. *)
Fixpoint apply_writes (ws : list (jsstring * jsstring))
    (m : gmap jsstring jsstring) : gmap jsstring jsstring :=
  match ws with
  | [] => m
  | w :: ws' => apply_writes ws' (<[ w.1 := toWellFormed w.2 ]> m)
  end.


Definition perform (e : effect) (st : state) : state :=
  {| argv := argv st; OPENAI_API_KEY := OPENAI_API_KEY st;
     files := apply_writes (written e) (files st);
     dirs := list_to_set (made e) ∪ dirs st;
     console := console st ++ printed e;
     network := network st |}.

(** [does c o ws]: from every state, [c] ends with outcome [o] after
    writing the texts [ws] to their paths (in that order); it reads
    nothing, sends nothing, and otherwise only makes directories and
    prints. *)
Definition does {A} (c : M A) (o : outcome A) (ws : list (jsstring * jsstring)) : Prop :=
  exists e : effect, written e = ws /\ forall st, c st = (o, perform e st).

(** [runs c o ws ds evs]: the same with the directories made and the
    lines printed. *)
Definition runs {A} (c : M A) (o : outcome A) (ws : list (jsstring * jsstring))
    (ds : list jsstring) (evs : list event) : Prop :=
  forall st, c st = (o, perform {| written := ws; made := ds; printed := evs |} st).

(** An outcome of the pure part of the script: a value or a TypeError. *)
Definition value_or_TypeError {A} (o : outcome A) : Prop :=
  (exists a, o = Ok a) \/ o = Throw TypeError.


(** The storyboard of the duration scenario: slides of 20, 25 and 15
    seconds and a declared total [declared]. *)
Definition slide (id : jsstring) (durationSec : float) : value :=
  VObj [(js "id", VStr id); (js "title", VStr id); (js "durationSec", VNum durationSec)].

Definition storyboard_with (meta : list (jsstring * value)) (slides : list value) : value :=
  VObj [(js "meta", VObj meta); (js "slides", VArr slides)].

Definition scenario_slides : list value :=
  [slide (js "intro") 20%float; slide (js "analysis") 25%float; slide (js "outro") 15%float].

Definition scenario (declared : float) : value :=
  storyboard_with [(js "videoId", VStr (js "3-ways-ai-helps"));
                   (js "defaultFps", VNum 30%float);
                   (js "totalDurationSec", VNum declared)]
                  scenario_slides.

Section Emitter.
Context {rt : Runtime}.


(** The path of the placeholder of a slide (lines 340-341). *)
Definition placeholder_path (outDir : jsstring) (slide : value) : outcome jsstring :=
  id ← get slide (js "id");
  id ← ToString id;
  Ok (path_join [voiceDir_of outDir; id ++ js ".mp3"]).

Fixpoint placeholder_paths (outDir : jsstring) (slides : list value)
  : outcome (list jsstring) :=
  match slides with
  | [] => Ok []
  | s :: rest =>
    p ← placeholder_path outDir s;
    ps ← placeholder_paths outDir rest;
    Ok (p :: ps)
  end.

Definition yamlPath (output : jsstring) : jsstring := path_join [output; js "storyboard.yaml"].
Definition jsonPath (output : jsstring) : jsstring := path_join [output; js "storyboard.json"].
Definition tsxPath (output : jsstring) : jsstring := path_join [output; js "Video.tsx"].
Definition summaryPath (output : jsstring) : jsstring := path_join [output; js "EXEC_SUMMARY.txt"].
Definition placeholder_of (output id : jsstring) : jsstring :=
  path_join [voiceDir_of output; id ++ js ".mp3"].

(** The body of the loop of lines 339-345. *)
Definition write_placeholder (outDir : jsstring) (slide : value) : M unit :=
  id ← lift (get slide (js "id"));
  id ← lift (ToString id);
  writeFileSync (path_join [voiceDir_of outDir; id ++ js ".mp3"]) [].

(** The file system accepts a write to [p]. *)
Definition accepted (p : jsstring) : Prop := fs_open_error p = None.

(** How the loop of lines 339-345 ends, and the paths of the placeholders
    it has written by then: it stops at the first slide whose path cannot
    be computed or is refused. *)
Fixpoint placeholders_run (outDir : jsstring) (slides : list value)
  : outcome unit * list jsstring :=
  match slides with
  | [] => (Ok tt, [])
  | s :: rest =>
    match placeholder_path outDir s with
    | Ok p =>
      match fs_open_error p with
      | None => let r := placeholders_run outDir rest in (r.1, p :: r.2)
      | Some e => (Throw e, [])
      end
    | Throw e => (Throw e, [])
    | Exit c => (Exit c, [])
    end
  end.

(** js-yaml returns for [yamlStr] nothing that line 217 throws on. *)
Definition yaml_serialisable (yamlStr : jsstring) : Prop :=
  forall load e, yaml = Some load -> load yamlStr <> inr (NotJSON e).






End Emitter.


Definition no_effect : effect := {| written := []; made := []; printed := [] |}.

Definition then_effect (e1 e2 : effect) : effect :=
  {| written := written e1 ++ written e2;
     made := made e1 ++ made e2;
     printed := printed e1 ++ printed e2 |}.

(** ** A concrete runtime for the examples *)

Module Sample.

(** [toUpperCase] on ASCII text. *)
Definition upper (s : jsstring) : jsstring := List.map ascii_upper s.

(** [path.join] on segments that are already normalised. *)
Definition join_path (segments : list jsstring) : jsstring := join (js "/") segments.

Definition float_to_Z (x : float) : option Z :=
  match Prim2SF x with
  | S754_zero _ => Some 0%Z
  | S754_finite sign m e =>
    let z := if (0 <=? e)%Z then Some (Z.pos m * 2 ^ e)%Z
             else if (Z.pos m mod 2 ^ (- e) =? 0)%Z then Some (Z.pos m / 2 ^ (- e))%Z
             else None in
    (fun z => if sign then (- z)%Z else z) <$> z
  | _ => None
  end.

(** Number::toString on the integers (the examples print no other number). *)
Definition number (x : float) : jsstring :=
  match float_to_Z x with
  | Some z => js (NilZero.string_of_int (Z.to_int z))
  | None => js "NaN"
  end.

Definition quote (s : jsstring) : jsstring :=
  [34] ++ flat_map (fun c => if c =? 34 then [92; 34]
                             else if c =? 92 then [92; 92]
                             else if c =? 10 then [92; 110]
                             else [c]) s ++ [34].

(** JSON.stringify on the values of the examples. *)
Fixpoint stringify (v : value) : jsstring :=
  match v with
  | VUndefined | VNull => js "null"
  | VBool b => if b then js "true" else js "false"
  | VNum x => number x
  | VStr s => quote s
  | VArr items => js "[" ++ join (js ",") (List.map stringify items) ++ js "]"
  | VObj props =>
    js "{" ++ join (js ",") (List.map (fun kv => quote (fst kv) ++ js ":" ++ stringify (snd kv)) props)
    ++ js "}"
  end.

(** JSON.parse on the serializations of the listed values; any other text
    is rejected. *)
Definition parse (known : list value) (s : jsstring) : jsstring + value :=
  match List.find (fun v => bool_decide (stringify v = s)) known with
  | Some v => inr v
  | None => inl (js "Unexpected token")
  end.

Definition load (known : list (jsstring * value)) (s : jsstring) : exn + loaded :=
  match List.find (fun kv => bool_decide (fst kv = s)) known with
  | Some kv => inr (Tree (snd kv))
  | None => inl (Error (js "YAMLException"))
  end.

(** A file system in which a directory of voice-overs has no
    subdirectory: a placeholder whose name holds a [/] is refused with
    ENOENT, and every other write succeeds. *)
Definition open_error (p : jsstring) : option exn :=
  match strip_prefix (rev (js ".mp3")) (rev p) with
  | None => None
  | Some _ =>
    match split_at_first (js "/public/voiceovers/") p with
    | Some (_, name) =>
      if bool_decide (47 ∈ name) then Some (SystemError (js "ENOENT")) else None
    | None => None
    end
  end.

Definition fixed_names_accepted (dir name : jsstring) :
  name ∈ fixed_names -> open_error (join_path [dir; name]) = None.
Proof.
  intros H. unfold open_error, join_path, fixed_names in *. cbn [join].
  rewrite !rev_app_distr.
  repeat (apply elem_of_cons in H as [->|H]);
    [vm_compute; reflexivity.. | by apply elem_of_nil in H].
Qed.

(** The reply of the model: prose, the two fenced blocks and a summary. *)
Definition reply (yamlText jsonText summary : jsstring) : jsstring :=
  js "Here is the storyboard." ++ nl ++
  FENCE ++ js "yaml" ++ nl ++ yamlText ++ nl ++ FENCE ++ nl ++ nl ++
  FENCE ++ js "json" ++ nl ++ jsonText ++ nl ++ FENCE ++ nl ++ nl ++ summary.

(** The body of the HTTP response that carries [content]. *)
Definition completion (content : jsstring) : value :=
  VObj [(js "choices", VArr [VObj [(js "index", VNum 0%float);
    (js "message", VObj [(js "role", VStr (js "assistant")); (js "content", VStr content)])]])].

(** A runtime whose service answers every request with [content], and
    whose parsers know the values [jsons] and the YAML texts [yamls]. *)
Definition runtime (jsons : list value) (yamls : list (jsstring * value))
    (content : jsstring) : Runtime :=
  {| JSON_parse := parse (completion content :: jsons);
     JSON_stringify := stringify;
     JSON_normalise := fun v => v;
     yaml := Some (load yamls);
     Number_toString := number;
     String_toNumber := fun _ => nan;
     toUpperCase := upper;
     path_join := join_path;
     fetch := fun _ => Response true 200%float (stringify (completion content));
     fs_open_error := open_error;
     fs_normal := fixed_names_accepted |}.

Definition state0 : state :=
  {| argv := [js "node"; js "storyboard_tool.js";
              js "--input"; js "research.md"; js "--output"; js "out"];
     OPENAI_API_KEY := Some (js "sk-test");
     files := {[ js "research.md" := js "AI helps in three ways." ]};
     dirs := ∅;
     console := [];
     network := [] |}.

Definition yaml_text : jsstring :=
  js "meta:" ++ nl ++ js "  videoId: 3-ways-ai-helps".

Definition summary_text : jsstring :=
  js "| id | title | durationSec |".

(** The duration scenario served by the model. *)
Definition scenario_reply (declared : float) : jsstring :=
  reply yaml_text (stringify (scenario declared)) summary_text.
Definition scenario_runtime (declared : float) : Runtime :=
  runtime [scenario declared] [(yaml_text, scenario declared)] (scenario_reply declared).
Definition scenario_blocks (declared : float) : blocks :=
  {| blocks_yaml := yaml_text;
     blocks_json := stringify (scenario declared);
     blocks_summary := summary_text |}.

(** A reply whose JSON block is not JSON. *)
Definition broken_reply : jsstring := reply yaml_text (js "{oops") summary_text.
Definition broken_runtime : Runtime := runtime [] [] broken_reply.
Definition broken_blocks : blocks :=
  {| blocks_yaml := yaml_text; blocks_json := js "{oops"; blocks_summary := summary_text |}.

(** A reply whose YAML block is indented, and whose JSON block is [{}]. *)
Definition indented_body : jsstring := js "  a: 1" ++ nl ++ js "  b: 2" ++ nl.
Definition indented_reply : jsstring :=
  FENCE ++ js "yaml" ++ nl ++ indented_body ++ FENCE ++ nl ++
  FENCE ++ js "json" ++ nl ++ js "{}" ++ nl ++ FENCE.
Definition indented_runtime : Runtime := runtime [VObj []] [] indented_reply.
Definition indented_blocks : blocks :=
  {| blocks_yaml := js "a: 1" ++ nl ++ js "  b: 2"; blocks_json := js "{}";
     blocks_summary := [] |}.

(** Replies without blocks, and with a YAML block only. *)
Definition refusal : jsstring := js "Sorry, I cannot help with that.".
Definition yaml_only : jsstring :=
  FENCE ++ js "yaml" ++ nl ++ yaml_text ++ nl ++ FENCE.

(** Two slides with the same id; a structure without [meta]. *)
Definition duplicate_ids : value :=
  storyboard_with [] [slide (js "intro") 20%float; slide (js "intro") 25%float].
Definition without_meta : value := VObj [(js "slides", VArr scenario_slides)].

Definition state_without_key : state :=
  {| argv := argv state0; OPENAI_API_KEY := None; files := files state0;
     dirs := ∅; console := []; network := [] |}.

End Sample.

(** ** Vocabulary of the further properties *)

(** [b] stands right after [a] in [l]. *)
Definition adjacent (a b : jsstring) (l : list jsstring) : Prop :=
  exists l1 l2, l = l1 ++ a :: b :: l2.

(** [arg === '--help' || arg === '-h'] *)
Definition is_help (arg : jsstring) : bool :=
  bool_decide (arg = js "--help") || bool_decide (arg = js "-h").

(** The arguments the script looks at ([process.argv.slice(2)]). *)
Definition arguments (st : state) : list jsstring := drop 2 (argv st).

(** [c] reads nothing from the state, never ends the process, and throws
    only exceptions in [Q]. *)
Definition fails_only {A} (Q : exn -> Prop) (c : M A) : Prop :=
  exists o ws, does c o ws
    /\ match o with Ok _ => True | Throw e => Q e | Exit _ => False end.

(** The exceptions of a run once the reply has arrived: those of the
    script and of the engine, the one of line 217 on what js-yaml returned,
    and the one with which the file system refuses a path. *)
Definition response_error {rt : Runtime} (e : exn) : Prop :=
  e = TypeError \/ e = ExtractionError_YAML \/ e = ExtractionError_JSON
  \/ (exists message, e = ParseError message)
  \/ (exists load yamlStr, yaml = Some load /\ load yamlStr = inr (NotJSON e))
  \/ (exists p, fs_open_error p = Some e).

(** A text without white space at its two ends. *)
Definition trimmed (s : jsstring) : Prop :=
  (forall c rest, s = c :: rest -> is_trim_space c = false)
  /\ (forall init c, s = init ++ [c] -> is_trim_space c = false).

Module Cases.

Definition state_with_args (args : list jsstring) : state :=
  {| argv := js "node" :: js "storyboard_tool.js" :: args;
     OPENAI_API_KEY := Some (js "sk-test");
     files := {[ js "research.md" := js "AI helps in three ways." ]};
     dirs := ∅; console := []; network := [] |}.

(** A slide whose duration is the string ["20"]. *)
Definition string_duration : value :=
  VObj [(js "id", VStr (js "intro")); (js "durationSec", VStr (js "20"))].

(** A slide without an id. *)
Definition anonymous : value := VObj [(js "title", VStr (js "untitled"))].

(** A structure whose [videoId] is a number. *)
Definition numeric_videoId : value :=
  storyboard_with [(js "videoId", VNum 42%float)] scenario_slides.

(** A structure whose second slide is [null]. *)
Definition null_slide : value :=
  storyboard_with [] [slide (js "intro") 20%float; VNull; slide (js "outro") 15%float].

(** A runtime without js-yaml whose service answers every request with
    the status 503. *)
Definition overloaded_runtime : Runtime :=
  {| JSON_parse := Sample.parse [];
     JSON_stringify := Sample.stringify;
     JSON_normalise := fun v => v;
     yaml := None;
     Number_toString := Sample.number;
     String_toNumber := fun _ => nan;
     toUpperCase := Sample.upper;
     path_join := Sample.join_path;
     fetch := fun _ => Response false 503%float (js "overloaded");
     fs_open_error := Sample.open_error;
     fs_normal := Sample.fixed_names_accepted |}.

(** A runtime whose js-yaml returns for every text a structure that holds
    itself, as for the document [&a [*a]]; the service answers with
    [Sample.indented_reply], whose JSON block is [{}]. *)
Definition alias_runtime : Runtime :=
  {| JSON_parse := Sample.parse [Sample.completion Sample.indented_reply; VObj []];
     JSON_stringify := Sample.stringify;
     JSON_normalise := fun v => v;
     yaml := Some (fun _ => inr (NotJSON TypeError));
     Number_toString := Sample.number;
     String_toNumber := fun _ => nan;
     toUpperCase := Sample.upper;
     path_join := Sample.join_path;
     fetch := fun _ =>
       Response true 200%float (Sample.stringify (Sample.completion Sample.indented_reply));
     fs_open_error := Sample.open_error;
     fs_normal := Sample.fixed_names_accepted |}.

(** A structure whose second slide has the id [a/b]. *)
Definition nested_id : value :=
  storyboard_with [] [slide (js "intro") 20%float; slide (js "a/b") 25%float;
                      slide (js "outro") 15%float].


(** A structure with a [meta] and without [slides], and a runtime whose
    service answers with it. *)
Definition meta_only : value :=
  VObj [(js "meta", VObj [(js "videoId", VStr (js "3-ways-ai-helps"))])].
Definition meta_only_reply : jsstring :=
  Sample.reply Sample.yaml_text (Sample.stringify meta_only) Sample.summary_text.
Definition meta_only_runtime : Runtime :=
  Sample.runtime [meta_only] [] meta_only_reply.
Definition meta_only_blocks : blocks :=
  {| blocks_yaml := Sample.yaml_text;
     blocks_json := Sample.stringify meta_only;
     blocks_summary := Sample.summary_text |}.

End Cases.

(** ** The script on examples *)

Example camelCase_generated_video :
  camelCase (rt := Sample.broken_runtime) (js "generated-video") = js "GeneratedVideo".
Proof. vm_compute. reflexivity. Qed.

Example camelCase_separators_at_the_end :
  camelCase (rt := Sample.broken_runtime) (js "my video --") = js "MyVideo-".
Proof. vm_compute. reflexivity. Qed.

Example trim_block : trim (js "  a: 1  " ++ nl) = js "a: 1".
Proof. vm_compute. reflexivity. Qed.

Example match_fence_first_block :
  match_fence (js "json") (js "x```json" ++ nl ++ js "{}```y```json" ++ nl ++ js "[]```")
  = Some {| index := 1; m0 := js "```json" ++ nl ++ js "{}```"; m1 := js "{}" |}.
Proof. vm_compute. reflexivity. Qed.

Example replace_expands_dollar_patterns :
  replace_string (js "a<<X>>b") (js "<<X>>") (js "[$&|$`|$'|$$|$1]")
  = js "a[<<X>>|a|b|$|$1]b".
Proof. vm_compute. reflexivity. Qed.

(** A complete run: slides of 20, 25 and 15 seconds, declared total 50. *)
Example script_on_scenario_50 :
  let r := script (rt := Sample.scenario_runtime 50%float) Sample.state0 in
  fst r = Ok tt
  /\ size (files (snd r)) = 8%nat
  /\ forallb (fun p => bool_decide (is_Some (files (snd r) !! p)))
       [js "research.md"; js "out/storyboard.yaml"; js "out/storyboard.json";
        js "out/Video.tsx"; js "out/public/voiceovers/intro.mp3";
        js "out/public/voiceovers/analysis.mp3";
        js "out/public/voiceovers/outro.mp3"; js "out/EXEC_SUMMARY.txt"] = true
  /\ console (snd r) =
     [log (js "[storyboard_tool] Sending prompt to OpenAI...");
      log (js "[storyboard_tool] Received response from OpenAI");
      log (js "[storyboard_tool] Wrote storyboard.yaml and storyboard.json to out");
      warn (duration_warning (js "50") (js "60"));
      log (js "[storyboard_tool] Wrote Remotion component to out/Video.tsx");
      log (js "[storyboard_tool] Wrote 3 placeholder voice‑over files to out/public/voiceovers");
      log (js "[storyboard_tool] Wrote execution summary to out/EXEC_SUMMARY.txt");
      log (js "[storyboard_tool] Done.")]
  /\ length (network (snd r)) = 1%nat.
Proof. vm_compute. repeat split. Qed.

(** Without [meta] the placeholders and the summary are still written, and
    Video.tsx is not. *)
Example derived_files_without_meta :
  let r := emit_derived (rt := Sample.scenario_runtime 60%float) Sample.without_meta
             Sample.summary_text (js "out") Sample.state0 in
  fst r = Ok tt
  /\ size (files (snd r)) = 5%nat
  /\ forallb (fun p => bool_decide (is_Some (files (snd r) !! p)))
       [js "research.md"; js "out/public/voiceovers/intro.mp3";
        js "out/public/voiceovers/analysis.mp3";
        js "out/public/voiceovers/outro.mp3"; js "out/EXEC_SUMMARY.txt"] = true
  /\ files (snd r) !! js "out/Video.tsx" = None.
Proof. vm_compute. repeat split. Qed.

(** The help flag ends the process with status 0 before any input is read. *)
Example script_help :
  let st := {| argv := [js "node"; js "storyboard_tool.js"; js "--help"];
               OPENAI_API_KEY := None; files := ∅; dirs := ∅;
               console := []; network := [] |} in
  script (rt := Sample.broken_runtime) st
  = (Exit 0, logged [log usage] st).
Proof. vm_compute. reflexivity. Qed.

(** ** Properties of the string functions *)

(** *** Texts as UTF-8 *)

Lemma toWellFormed_cons (c : N) (s : jsstring) :
  is_high_surrogate c = false -> is_low_surrogate c = false ->
  toWellFormed (c :: s) = c :: toWellFormed s.
Proof. intros Hh Hl. cbn [toWellFormed]. by rewrite Hh, Hl. Qed.

Lemma toWellFormed_app_plain (x y : jsstring) :
  forallb (fun c => negb (is_high_surrogate c || is_low_surrogate c)) x = true ->
  toWellFormed (x ++ y) = x ++ toWellFormed y.
Proof.
  induction x as [|c x IH]; intros H; [reflexivity|].
  cbn [forallb] in H. apply andb_true_iff in H as [Hc Hx].
  apply negb_true_iff, orb_false_iff in Hc as [Hh Hl].
  rewrite <- !app_comm_cons, toWellFormed_cons by done. by rewrite IH.
Qed.

Lemma toWellFormed_plain (x : jsstring) :
  forallb (fun c => negb (is_high_surrogate c || is_low_surrogate c)) x = true ->
  toWellFormed x = x.
Proof.
  intros H. rewrite <- (app_nil_r x) at 1.
  rewrite toWellFormed_app_plain by done. by rewrite app_nil_r.
Qed.

(** The encoding of a text can be cut before a unit that is not the
    second half of a pair. *)
Lemma toWellFormed_app_cons (x : jsstring) (c : N) (y : jsstring) :
  is_low_surrogate c = false ->
  toWellFormed (x ++ c :: y) = toWellFormed x ++ toWellFormed (c :: y).
Proof.
  intros Hc. remember (length x) as n eqn:Hn.
  revert x Hn. induction n as [n IH] using lt_wf_ind. intros x Hn.
  destruct x as [|a x]; [reflexivity|].
  rewrite <- app_comm_cons.
  destruct (is_high_surrogate a) eqn:Ha.
  - destruct x as [|d x].
    + change (toWellFormed (a :: [] ++ c :: y))
        with (if is_high_surrogate a
              then if is_low_surrogate c then a :: c :: toWellFormed y
                   else 0xFFFD :: toWellFormed (c :: y)
              else if is_low_surrogate a then 0xFFFD :: toWellFormed (c :: y)
                   else a :: toWellFormed (c :: y)).
      rewrite Ha, Hc. cbn [toWellFormed]. by rewrite Ha.
    + rewrite <- app_comm_cons.
      change (toWellFormed (a :: d :: x ++ c :: y))
        with (if is_high_surrogate a
              then if is_low_surrogate d then a :: d :: toWellFormed (x ++ c :: y)
                   else 0xFFFD :: toWellFormed (d :: x ++ c :: y)
              else if is_low_surrogate a then 0xFFFD :: toWellFormed (d :: x ++ c :: y)
                   else a :: toWellFormed (d :: x ++ c :: y)).
      change (toWellFormed (a :: d :: x))
        with (if is_high_surrogate a
              then if is_low_surrogate d then a :: d :: toWellFormed x
                   else 0xFFFD :: toWellFormed (d :: x)
              else if is_low_surrogate a then 0xFFFD :: toWellFormed (d :: x)
                   else a :: toWellFormed (d :: x)).
      rewrite Ha. destruct (is_low_surrogate d).
      * rewrite (IH (length x)); [reflexivity | simpl in Hn; lia | reflexivity].
      * rewrite (app_comm_cons x (c :: y) d).
        rewrite (IH (length (d :: x))); [reflexivity | simpl in Hn |- *; lia | reflexivity].
  - change (toWellFormed (a :: x ++ c :: y))
      with (if is_high_surrogate a
            then match x ++ c :: y with
                 | d :: rest' =>
                   if is_low_surrogate d then a :: d :: toWellFormed rest'
                   else 0xFFFD :: toWellFormed (x ++ c :: y)
                 | [] => [0xFFFD]
                 end
            else if is_low_surrogate a then 0xFFFD :: toWellFormed (x ++ c :: y)
                 else a :: toWellFormed (x ++ c :: y)).
    change (toWellFormed (a :: x))
      with (if is_high_surrogate a
            then match x with
                 | d :: rest' =>
                   if is_low_surrogate d then a :: d :: toWellFormed rest'
                   else 0xFFFD :: toWellFormed x
                 | [] => [0xFFFD]
                 end
            else if is_low_surrogate a then 0xFFFD :: toWellFormed x
                 else a :: toWellFormed x).
    rewrite Ha.
    rewrite (IH (length x)); [|simpl in Hn; lia | reflexivity].
    by destruct (is_low_surrogate a).
Qed.

(** A literal between two texts keeps them apart. *)
Lemma toWellFormed_app_literal (x lit y : jsstring) :
  lit <> [] ->
  forallb (fun c => negb (is_high_surrogate c || is_low_surrogate c)) lit = true ->
  toWellFormed (x ++ lit ++ y) = toWellFormed x ++ lit ++ toWellFormed y.
Proof.
  intros Hne Hlit. destruct lit as [|c lit]; [done|].
  pose proof Hlit as Hlit'. cbn [forallb] in Hlit'.
  apply andb_true_iff in Hlit' as [Hc _].
  apply negb_true_iff, orb_false_iff in Hc as [_ Hl].
  rewrite <- app_comm_cons, toWellFormed_app_cons by done.
  f_equal. rewrite app_comm_cons. by apply toWellFormed_app_plain.
Qed.

(** A text without a lone surrogate is written as it is. *)
Lemma toWellFormed_isWellFormed (s : jsstring) :
  isWellFormed s = true -> toWellFormed s = s.
Proof.
  remember (length s) as n eqn:Hn.
  revert s Hn. induction n as [n IH] using lt_wf_ind. intros s Hn.
  destruct s as [|c s]; [reflexivity|].
  cbn [isWellFormed toWellFormed].
  destruct (is_high_surrogate c).
  - destruct s as [|d s]; [discriminate|].
    intros H. apply andb_true_iff in H as [Hd Hs]. rewrite Hd.
    rewrite (IH (length s)); [reflexivity | simpl in Hn; lia | reflexivity | exact Hs].
  - intros H. apply andb_true_iff in H as [Hc Hs].
    apply negb_true_iff in Hc. rewrite Hc.
    rewrite (IH (length s)); [reflexivity | simpl in Hn; lia | reflexivity | exact Hs].
Qed.

(** *** Searching *)

Lemma strip_prefix_app (pat s : jsstring) : strip_prefix pat (pat ++ s) = Some s.
Proof.
  induction pat as [|p pat IH]; simpl; [reflexivity|].
  rewrite N.eqb_refl. exact IH.
Qed.

Lemma strip_prefix_Some (pat s r : jsstring) :
  strip_prefix pat s = Some r -> s = pat ++ r.
Proof.
  revert s. induction pat as [|p pat IH]; intros s H; simpl in *.
  - congruence.
  - destruct s as [|c s]; [discriminate|].
    destruct (N.eqb_spec p c); [|discriminate].
    subst. f_equal. auto.
Qed.

Lemma split_at_first_Some (pat s pre post : jsstring) :
  split_at_first pat s = Some (pre, post) -> s = pre ++ pat ++ post.
Proof.
  revert pre. induction s as [|c s IH]; intros pre H; simpl in H.
  - destruct (strip_prefix pat []) eqn:E; [|discriminate].
    inversion H; subst. apply strip_prefix_Some in E. exact E.
  - destruct (strip_prefix pat (c :: s)) eqn:E.
    + inversion H; subst. apply strip_prefix_Some in E. exact E.
    + destruct (split_at_first pat s) as [[pre' post']|] eqn:E'; [|discriminate].
      inversion H; subst. simpl. f_equal. auto.
Qed.

(** A pattern that avoids the unit [c] cannot start before a [c] and end
    after it. *)
Lemma strip_prefix_across (pat a b : jsstring) (c : N) :
  c ∉ pat -> is_Some (strip_prefix pat (a ++ c :: b)) -> is_Some (strip_prefix pat a).
Proof.
  revert a. induction pat as [|p pat IH]; intros a Hc H; simpl.
  - eauto.
  - destruct a as [|x a]; simpl in *.
    + destruct (N.eqb_spec p c) as [->|]; [|by destruct H].
      exfalso. apply Hc. left.
    + destruct (p =? x); [|by destruct H].
      apply IH; [|done]. intros Hin. apply Hc. by right.
Qed.

Lemma includes_cons_false (pat s : jsstring) (c : N) :
  includes pat (c :: s) = false ->
  strip_prefix pat (c :: s) = None /\ includes pat s = false.
Proof.
  unfold includes. simpl.
  destruct (strip_prefix pat (c :: s)); [discriminate|].
  destruct (split_at_first pat s) as [[? ?]|]; [discriminate|done].
Qed.

Lemma includes_across (pat a b : jsstring) (c : N) :
  c ∉ pat -> pat ≠ [] ->
  includes pat a = false -> includes pat b = false ->
  includes pat (a ++ c :: b) = false.
Proof.
  intros Hc Hne Ha Hb. induction a as [|x a IH]; simpl.
  - unfold includes in *. simpl.
    destruct pat as [|p pat]; [done|]. simpl.
    destruct (N.eqb_spec p c) as [->|].
    + exfalso. apply Hc. left.
    + destruct (split_at_first (p :: pat) b) as [[? ?]|]; done.
  - apply includes_cons_false in Ha as [Hx Ha].
    specialize (IH Ha). unfold includes in *. simpl.
    destruct (strip_prefix pat (x :: a ++ c :: b)) eqn:E.
    + assert (is_Some (strip_prefix pat (x :: a))) as [r Hr].
      { apply (strip_prefix_across pat (x :: a) b c Hc). simpl. rewrite E. eauto. }
      congruence.
    + destruct (split_at_first pat (a ++ c :: b)) as [[? ?]|]; done.
Qed.

Lemma occurrences_app_l (pat a s : jsstring) :
  (occurrences pat s <= occurrences pat (a ++ s))%nat.
Proof.
  induction a as [|x a IH]; simpl; [lia|].
  destruct (strip_prefix pat (x :: a ++ s)); lia.
Qed.

Lemma occurrences_at_head (pat s : jsstring) :
  (1 <= occurrences pat (pat ++ s))%nat.
Proof.
  destruct (pat ++ s) as [|c r] eqn:E; simpl.
  - destruct pat; [simpl; lia | discriminate].
  - rewrite <- E, strip_prefix_app. lia.
Qed.

Lemma GetSubstitution_plain (matched preceding following templ : jsstring) :
  has_dollar_pattern templ = false ->
  GetSubstitution matched preceding following templ = templ.
Proof.
  induction templ as [|c rest IH]; intros H; [reflexivity|].
  simpl in H. apply orb_false_iff in H as [H1 H2].
  specialize (IH H2). simpl.
  destruct (c =? 36); [|by rewrite IH].
  destruct rest as [|d rest']; [reflexivity|].
  repeat (apply orb_false_iff in H1 as [H1 ?]).
  rewrite H1. destruct (d =? 38); [discriminate|].
  destruct (d =? 96); [discriminate|]. destruct (d =? 39); [discriminate|].
  by rewrite IH.
Qed.

Lemma MASTER_PROMPT_split :
  split_at_first PLACEHOLDER MASTER_PROMPT = Some (PROMPT_PREFIX, PROMPT_SUFFIX).
Proof. vm_compute. reflexivity. Qed.

(** ** The prompt composer *)

(** C3, amended.  For a research text [T] that holds none of the
    replacement patterns [$$], [$&], [$`], [$'], the composed prompt is the
    template with the placeholder replaced by [T] verbatim (template
    prefix, [T], template suffix), so [T] occurs in it at least once; and
    when [T] does not itself hold the placeholder token, the token is no
    longer present. *)
Theorem compose_prompt_verbatim (T : jsstring) :
  has_dollar_pattern T = false ->
  compose_prompt T = PROMPT_PREFIX ++ T ++ PROMPT_SUFFIX
  /\ (1 <= occurrences T (compose_prompt T))%nat
  /\ (includes PLACEHOLDER T = false ->
      includes PLACEHOLDER (compose_prompt T) = false).
Proof.
  intros HT.
  assert (E : compose_prompt T = PROMPT_PREFIX ++ T ++ PROMPT_SUFFIX).
  { unfold compose_prompt, replace_string.
    rewrite MASTER_PROMPT_split, GetSubstitution_plain; done. }
  rewrite E. split; [reflexivity|]. split.
  - etransitivity; [apply (occurrences_at_head T PROMPT_SUFFIX)|].
    apply occurrences_app_l.
  - intros Hno.
    assert (Hnl : 10 ∉ PLACEHOLDER).
    { apply (bool_decide_unpack _). by vm_compute. }
    assert (Hne : PLACEHOLDER ≠ []) by (vm_compute; discriminate).
    change PROMPT_SUFFIX with (10 :: join nl (drop 28 MASTER_PROMPT_lines)).
    replace (PROMPT_PREFIX ++ T ++ 10 :: join nl (drop 28 MASTER_PROMPT_lines))
      with (join nl (take 27 MASTER_PROMPT_lines)
            ++ 10 :: (T ++ 10 :: join nl (drop 28 MASTER_PROMPT_lines))).
    2:{ unfold PROMPT_PREFIX, nl. rewrite <- app_assoc. reflexivity. }
    apply includes_across; [done | done | by vm_compute |].
    apply includes_across; [done | done | done | by vm_compute].
Qed.

Lemma compose_prompt_verbatim_witness :
  compose_prompt (js "AI helps in three ways.")
  = PROMPT_PREFIX ++ js "AI helps in three ways." ++ PROMPT_SUFFIX
  /\ (1 <= occurrences (js "AI helps in three ways.")
            (compose_prompt (js "AI helps in three ways.")))%nat
  /\ (includes PLACEHOLDER (js "AI helps in three ways.") = false ->
      includes PLACEHOLDER (compose_prompt (js "AI helps in three ways.")) = false).
Proof.
  apply (compose_prompt_verbatim (js "AI helps in three ways.")).
  vm_compute. reflexivity.
Defined.

(** C3 as stated fails: for the research text [$&] the composed prompt is
    the template itself, which still holds the placeholder token and does
    not hold the text; and a text such as [Tasks:] occurs twice. *)
Lemma compose_prompt_not_exactly_once :
  includes PLACEHOLDER (compose_prompt (js "$&")) = true
  /\ occurrences (js "$&") (compose_prompt (js "$&")) = 0%nat
  /\ occurrences (js "Tasks:") (compose_prompt (js "Tasks:")) = 2%nat.
Proof. vm_compute. repeat split. Qed.

(** ** Runs of the monad *)

Lemma bind_run {A B} (m : M A) (f : A -> M B) (st : state) :
  (m ≫= f) st =
  match m st with
  | (Ok a, st') => f a st'
  | (Throw e, st') => (Throw e, st')
  | (Exit c, st') => (Exit c, st')
  end.
Proof. reflexivity. Qed.

Lemma logged_files evs st : files (logged evs st) = files st.
Proof. reflexivity. Qed.

Lemma emit_logged ev st : emit ev st = (Ok tt, logged [ev] st).
Proof. reflexivity. Qed.

(** One step of a run: a bind is opened, a primitive of the process is
    replaced by what it does. *)
Ltac mstep :=
  repeat first
    [ rewrite bind_run
    | progress cbv beta iota
    | progress unfold mkdirSync, readFileSync, writeFileSync, console_log,
        console_warn, emit, lift, throw, process_argv,
        process_env_OPENAI_API_KEY, mret, M_ret ].

(** ** The identifier of the generated component *)

Section Properties.
Context {rt : Runtime}.

(** The files of fixed name are accepted by the file system. *)
Lemma accepted_fixed (output : jsstring) :
  fs_open_error (path_join [output; js "storyboard.yaml"]) = None
  /\ fs_open_error (path_join [output; js "storyboard.json"]) = None
  /\ fs_open_error (path_join [output; js "Video.tsx"]) = None
  /\ fs_open_error (path_join [output; js "EXEC_SUMMARY.txt"]) = None.
Proof.
  split; [|split; [|split]]; apply fs_normal; unfold fixed_names.
  - apply list_elem_of_here.
  - apply list_elem_of_further, list_elem_of_here.
  - do 2 apply list_elem_of_further. apply list_elem_of_here.
  - do 3 apply list_elem_of_further. apply list_elem_of_here.
Qed.

(** The text of Video.tsx as UTF-8: the fixed lines are written as they
    are, and keep the five texts that are inserted apart. *)
Lemma toWellFormed_tsx_text (component totalFrames fps width height : jsstring) :
  toWellFormed (tsx_text component totalFrames fps width height)
  = tsx_text (toWellFormed component) (toWellFormed totalFrames) (toWellFormed fps)
             (toWellFormed width) (toWellFormed height).
Proof.
  unfold tsx_text.
  repeat first
    [ rewrite toWellFormed_app_plain by (vm_compute; reflexivity)
    | rewrite toWellFormed_app_literal
        by first [vm_compute; discriminate | vm_compute; reflexivity] ].
  rewrite (toWellFormed_plain nl) by (vm_compute; reflexivity).
  reflexivity.
Qed.

Lemma render_tsx_with_videoId meta videoId tsx :
  get meta (js "videoId") = Ok (VStr videoId) ->
  videoId ≠ [] ->
  render_tsx meta = Ok tsx ->
  exists totalFrames fps width height,
    tsx = tsx_text (camelCase videoId) totalFrames fps width height.
Proof.
  intros Hid Hne. unfold render_tsx. rewrite Hid.
  destruct (get meta (js "defaultFps")) as [fps0| |]; [|discriminate..].
  cbn [mbind outcome_bind].
  destruct (get meta (js "defaultResolution")) as [res| |]; [|discriminate..].
  cbn [mbind outcome_bind].
  destruct (get_opt res (js "width")) as [w| |]; [|discriminate..].
  cbn [mbind outcome_bind].
  destruct (get_opt res (js "height")) as [h| |]; [|discriminate..].
  cbn [mbind outcome_bind].
  destruct (get meta (js "totalDurationSec")) as [tds| |]; [|discriminate..].
  cbn [mbind outcome_bind].
  destruct (js_mul _ _) as [tf| |]; [|discriminate..].
  cbn [mbind outcome_bind].
  assert (Hv : or_else (VStr videoId) (VStr (js "generated-video")) = VStr videoId).
  { unfold or_else. simpl. destruct videoId; done. }
  rewrite Hv. cbn [camelCase_value mbind outcome_bind].
  destruct (ToString tf) as [tfs| |]; [|discriminate..].
  cbn [mbind outcome_bind].
  destruct (ToString (or_else fps0 _)) as [fpss| |]; [|discriminate..].
  cbn [mbind outcome_bind].
  destruct (ToString (or_else w _)) as [ws| |]; [|discriminate..].
  cbn [mbind outcome_bind].
  destruct (ToString (or_else h _)) as [hs| |]; [|discriminate..].
  cbn [mbind outcome_bind].
  intros [= <-]. eauto.
Qed.

Lemma writeVideoTsx_with_videoId storyboard outDir st st' meta videoId :
  get storyboard (js "meta") = Ok meta ->
  get meta (js "videoId") = Ok (VStr videoId) ->
  videoId ≠ [] ->
  writeVideoTsx storyboard outDir st = (Ok tt, st') ->
  exists totalFrames fps width height,
    files st' = <[ path_join [outDir; js "Video.tsx"] :=
                   tsx_text (toWellFormed (camelCase videoId))
                            totalFrames fps width height ]> (files st).
Proof.
  intros Hmeta Hid Hne. unfold writeVideoTsx.
  rewrite bind_run. unfold lift at 1. rewrite Hmeta.
  assert (Ht : truthy meta = true).
  { destruct meta; try done; simpl in Hid; try discriminate. }
  rewrite Ht. cbn [negb]. cbv iota.
  rewrite bind_run. unfold lift at 1.
  destruct (render_tsx meta) as [tsx| |] eqn:Hr; [|discriminate..].
  rewrite bind_run. unfold writeFileSync.
  destruct (accepted_fixed outDir) as (_ & _ & -> & _).
  unfold console_log. rewrite emit_logged. intros [= <-].
  destruct (render_tsx_with_videoId _ _ _ Hid Hne Hr) as (tf & fps & w & h & ->).
  rewrite logged_files. cbn [files]. rewrite toWellFormed_tsx_text. eauto.
Qed.

(** C5.  For [meta.videoId = "3-ways-ai-helps"] the identifier that
    [camelCase] yields is [WaysAiHelps]: it is not empty, does not start
    with a digit and is a valid identifier; and it is the identifier of the
    component in the Video.tsx that [writeVideoTsx] writes.  (The case
    mapping of the host is only assumed to be the usual one on ASCII.) *)
Theorem camelCase_leading_digit :
  (forall c, c < 128 -> toUpperCase [c] = [ascii_upper c]) ->
  (exists c rest, camelCase (js "3-ways-ai-helps") = c :: rest
     /\ is_digit c = false
     /\ is_identifier (c :: rest) = true
     /\ c :: rest = js "WaysAiHelps")
  /\ (forall storyboard outDir st st' meta,
        get storyboard (js "meta") = Ok meta ->
        get meta (js "videoId") = Ok (VStr (js "3-ways-ai-helps")) ->
        writeVideoTsx storyboard outDir st = (Ok tt, st') ->
        exists totalFrames fps width height,
          files st' = <[ path_join [outDir; js "Video.tsx"] :=
            tsx_text (js "WaysAiHelps") totalFrames fps width height ]> (files st)).
Proof.
  intros Hup.
  assert (E : camelCase (js "3-ways-ai-helps") = js "WaysAiHelps").
  { unfold camelCase.
    assert (E1 : replace_separators 0 (js "3-ways-ai-helps")
                 = 51 :: toUpperCase [119] ++ js "ays" ++ toUpperCase [97]
                      ++ js "i" ++ toUpperCase [104] ++ js "elps")
      by (vm_compute; reflexivity).
    rewrite E1, !Hup by done. vm_compute.
    rewrite Hup by done. reflexivity. }
  split.
  - exists 87, (js "aysAiHelps"). rewrite E. by vm_compute.
  - intros storyboard outDir st st' meta Hmeta Hid Hw.
    assert (E' : js "WaysAiHelps" = toWellFormed (camelCase (js "3-ways-ai-helps")))
      by (rewrite E; vm_compute; reflexivity).
    rewrite E'.
    eapply writeVideoTsx_with_videoId; [exact Hmeta | exact Hid | | exact Hw].
    vm_compute. discriminate.
Qed.

End Properties.

Lemma camelCase_leading_digit_witness :
  (exists c rest, camelCase (rt := Sample.runtime [] [] []) (js "3-ways-ai-helps") = c :: rest
     /\ is_digit c = false
     /\ is_identifier (c :: rest) = true
     /\ c :: rest = js "WaysAiHelps").
Proof.
  refine (proj1 (camelCase_leading_digit (rt := Sample.runtime [] [] []) _)).
  intros c Hc. reflexivity.
Defined.

(** ** The fenced blocks *)

Lemma lazy_until_split (close s : jsstring) (c : N) :
  lazy_until close (c :: s) =
  match split_at_first close s with
  | Some (body, rest) => Some (c :: body, rest)
  | None => None
  end.
Proof.
  revert c. induction s as [|c' s IH]; intros c.
  - simpl. destruct (strip_prefix close []); reflexivity.
  - change (lazy_until close (c :: c' :: s)) with
      (match strip_prefix close (c' :: s) with
       | Some rest => Some ([c], rest)
       | None => match lazy_until close (c' :: s) with
                 | Some (body, rest) => Some (c :: body, rest)
                 | None => None
                 end
       end).
    rewrite IH. simpl.
    destruct (strip_prefix close (c' :: s)); [reflexivity|].
    destruct (split_at_first close s) as [[? ?]|]; reflexivity.
Qed.

Lemma lazy_until_Some (close s body rest : jsstring) :
  lazy_until close s = Some (body, rest) -> body <> [] /\ s = body ++ close ++ rest.
Proof.
  destruct s as [|c s]; [discriminate|].
  rewrite lazy_until_split.
  destruct (split_at_first close s) as [[b r]|] eqn:E; [|discriminate].
  intros H. inversion H; subst. split; [discriminate|].
  apply split_at_first_Some in E. by subst.
Qed.

Lemma split_at_first_is_Some (pat a b : jsstring) :
  is_Some (split_at_first pat (a ++ pat ++ b)).
Proof.
  induction a as [|x a IH].
  - simpl. destruct (pat ++ b) eqn:E.
    + destruct pat; [simpl; eauto | discriminate].
    + rewrite <- E. destruct (pat ++ b) eqn:E'; [discriminate|].
      simpl. rewrite <- E'. rewrite strip_prefix_app. eauto.
  - simpl. destruct (strip_prefix pat (x :: a ++ pat ++ b)); [eauto|].
    destruct IH as [[? ?] ->]. eauto.
Qed.

Lemma match_fence_unfold (tag s : jsstring) :
  match_fence tag s =
  match fence_here tag s with
  | Some (cap, _) =>
    Some {| index := 0; m0 := FENCE ++ tag ++ nl ++ cap ++ FENCE; m1 := cap |}
  | None =>
    match s with
    | [] => None
    | _ :: s' =>
      match match_fence tag s' with
      | Some r => Some {| index := S (index r); m0 := m0 r; m1 := m1 r |}
      | None => None
      end
    end
  end.
Proof. destruct s; reflexivity. Qed.

Lemma fence_here_Some (tag s cap rest : jsstring) :
  fence_here tag s = Some (cap, rest) ->
  cap <> [] /\ s = OPEN tag ++ cap ++ FENCE ++ rest.
Proof.
  unfold fence_here. fold (OPEN tag).
  destruct (strip_prefix (OPEN tag) s) as [r|] eqn:E; [|discriminate].
  intros H. apply lazy_until_Some in H as [Hne ->].
  apply strip_prefix_Some in E. done.
Qed.

(** The match is at the first opening marker, and its capture runs to the
    first closing marker that follows one unit or more. *)
Lemma split_at_first_unfold (pat s : jsstring) :
  split_at_first pat s =
  match strip_prefix pat s with
  | Some rest => Some ([], rest)
  | None =>
    match s with
    | [] => None
    | c :: s' =>
      match split_at_first pat s' with
      | Some (pre, post) => Some (c :: pre, post)
      | None => None
      end
    end
  end.
Proof. destruct s; reflexivity. Qed.

Lemma match_fence_at (tag s pre rest body post : jsstring) (c : N) :
  split_at_first (OPEN tag) s = Some (pre, c :: rest) ->
  split_at_first FENCE rest = Some (body, post) ->
  match_fence tag s =
    Some {| index := length pre;
            m0 := FENCE ++ tag ++ nl ++ (c :: body) ++ FENCE;
            m1 := c :: body |}.
Proof.
  intros Hs Hr. revert pre Hs. induction s as [|x s IH]; intros pre Hs;
    rewrite match_fence_unfold; unfold fence_here; fold (OPEN tag);
    rewrite split_at_first_unfold in Hs;
    destruct (strip_prefix (OPEN tag) _) as [r|].
  - inversion Hs; subst. rewrite lazy_until_split, Hr. reflexivity.
  - discriminate.
  - inversion Hs; subst. rewrite lazy_until_split, Hr. reflexivity.
  - destruct (split_at_first (OPEN tag) s) as [[pre' post']|]; [|discriminate].
    inversion Hs; subst. rewrite (IH pre' eq_refl). reflexivity.
Qed.

Lemma match_fence_sound (tag s : jsstring) (r : match_result) :
  match_fence tag s = Some r ->
  exists pre post,
    m1 r <> [] /\ s = pre ++ OPEN tag ++ m1 r ++ FENCE ++ post
    /\ index r = length pre /\ m0 r = FENCE ++ tag ++ nl ++ m1 r ++ FENCE.
Proof.
  revert r. induction s as [|x s IH]; intros r; rewrite match_fence_unfold.
  - destruct (fence_here tag []) as [[cap rest]|] eqn:E; [|discriminate].
    intros H. inversion H; subst. apply fence_here_Some in E as [? ?].
    exists [], rest. done.
  - destruct (fence_here tag (x :: s)) as [[cap rest]|] eqn:E.
    + intros H. inversion H; subst. apply fence_here_Some in E as [? ?].
      exists [], rest. done.
    + destruct (match_fence tag s) as [r'|]; [|discriminate].
      intros H. inversion H; subst. simpl.
      destruct (IH r' eq_refl) as (pre & post & ? & -> & ? & ?).
      exists (x :: pre), post. simpl. auto.
Qed.

Lemma match_fence_complete (tag s : jsstring) :
  fenced_block tag s -> is_Some (match_fence tag s).
Proof.
  intros (pre & body & post & Hne & ->).
  induction pre as [|x pre IH]; rewrite match_fence_unfold.
  - unfold fence_here. fold (OPEN tag). rewrite app_nil_l.
    rewrite strip_prefix_app. destruct body as [|c body]; [done|].
    rewrite <- app_comm_cons, lazy_until_split.
    destruct (split_at_first_is_Some FENCE body post) as [[b p] ->]. eauto.
  - destruct (fence_here tag ((x :: pre) ++ _)) as [[? ?]|]; [eauto|].
    rewrite <- app_comm_cons. destruct IH as [r ->]. eauto.
Qed.

Lemma match_fence_None (tag s : jsstring) :
  match_fence tag s = None <-> ~ fenced_block tag s.
Proof.
  split.
  - intros H Hb. apply match_fence_complete in Hb as [r Hr]. congruence.
  - intros H. destruct (match_fence tag s) as [r|] eqn:E; [|done].
    exfalso. apply H. apply match_fence_sound in E as (pre & post & ? & ? & _).
    exists pre, (m1 r), post. done.
Qed.

Lemma slice_after_match (s pre mid post : jsstring) :
  s = pre ++ mid ++ post -> drop (length pre + length mid) s = post.
Proof.
  intros ->. rewrite app_assoc, drop_app_length'; [done|].
  by rewrite length_app.
Qed.

(** ** Running the script *)

Section Pipeline.
Context {rt : Runtime}.

Lemma callOpenAI_files prompt st o st' :
  callOpenAI prompt st = (o, st') -> files st' = files st.
Proof.
  unfold callOpenAI. rewrite bind_run. unfold process_env_OPENAI_API_KEY.
  cbv beta iota.
  destruct (OPENAI_API_KEY st) as [[|k key]|].
  1,3: by intros [= <- <-].
  rewrite bind_run. unfold do_fetch. cbv beta iota.
  destruct (fetch _) as [e|ok status text].
  { by intros [= <- <-]. }
  destruct ok; cbn [negb]; cbv iota.
  2:{ by intros [= <- <-]. }
  rewrite bind_run. destruct (JSON_parse text).
  { by intros [= <- <-]. }
  unfold mret, M_ret, lift. by intros [= <- <-].
Qed.

Lemma obtain_response_files input output st o st' :
  obtain_response input output st = (o, st') -> files st' = files st.
Proof.
  unfold obtain_response. rewrite bind_run. unfold mkdirSync. cbv beta iota.
  rewrite bind_run. unfold readFileSync. cbv beta iota. simpl files.
  destruct (files st !! input) as [research|]; [|by intros [= <- <-]].
  rewrite bind_run. unfold console_log. rewrite emit_logged.
  rewrite bind_run.
  destruct (callOpenAI _ _) as [[r| |] st2] eqn:E;
    apply callOpenAI_files in E; simpl in E.
  - rewrite bind_run, emit_logged. unfold mret, M_ret.
    intros [= <- <-]. by rewrite logged_files.
  - by intros [= <- <-].
  - by intros [= <- <-].
Qed.

(** C8.  With the credential unset, [callOpenAI] throws the configuration
    error and leaves the state as it was: no request is sent.  The same
    holds for the whole pipeline once the input file is read: it fails with
    the configuration error and the list of requests is what it was. *)
Theorem missing_credential_no_network (prompt : jsstring) (st : state) :
  OPENAI_API_KEY st = None ->
  callOpenAI prompt st = (Throw ConfigurationError, st)
  /\ forall input output research,
       files st !! input = Some research ->
       exists st', pipeline input output st = (Throw ConfigurationError, st')
                   /\ network st' = network st /\ files st' = files st.
Proof.
  intros Hkey. split.
  - unfold callOpenAI. rewrite bind_run. unfold process_env_OPENAI_API_KEY.
    cbv beta iota. by rewrite Hkey.
  - intros input output research Hin.
    unfold pipeline, obtain_response. mstep.
    cbn [files]. rewrite Hin. mstep.
    unfold callOpenAI. mstep. cbn [OPENAI_API_KEY]. rewrite Hkey. mstep.
    eexists. split; [reflexivity|]. done.
Qed.

Lemma extractBlocks_no_json reply :
  ~ fenced_block (js "json") reply ->
  extractBlocks (VStr reply) =
    Throw (match match_fence (js "yaml") reply with
           | Some _ => ExtractionError_JSON
           | None => ExtractionError_YAML
           end).
Proof.
  intros H. apply match_fence_None in H. unfold extractBlocks.
  rewrite H. by destruct (match_fence (js "yaml") reply).
Qed.

(** C7, amended.  For a reply without a fenced [json] block the
    extraction throws: the error [Unable to find JSON block in response]
    when the reply holds a fenced [yaml] block, and the error
    [Unable to find YAML block in response] when it holds none (the YAML
    block is looked for first).  The pipeline fails with that error in the
    state in which the reply arrived, and no file has been written. *)
Theorem missing_json_block (reply input output : jsstring) (st0 st : state) :
  ~ fenced_block (js "json") reply ->
  obtain_response input output st0 = (Ok (VStr reply), st) ->
  (fenced_block (js "yaml") reply ->
     extractBlocks (VStr reply) = Throw ExtractionError_JSON
     /\ pipeline input output st0 = (Throw ExtractionError_JSON, st))
  /\ (~ fenced_block (js "yaml") reply ->
     extractBlocks (VStr reply) = Throw ExtractionError_YAML
     /\ pipeline input output st0 = (Throw ExtractionError_YAML, st))
  /\ files st = files st0.
Proof.
  intros Hj Hr. pose proof (extractBlocks_no_json reply Hj) as He.
  assert (Hp : forall e, extractBlocks (VStr reply) = Throw e ->
                         pipeline input output st0 = (Throw e, st)).
  { intros e Hx. unfold pipeline. rewrite bind_run, Hr.
    unfold process_response. rewrite bind_run. unfold lift. by rewrite Hx. }
  split; [|split].
  - intros Hy. apply match_fence_complete in Hy as [r Hy].
    rewrite Hy in He. auto.
  - intros Hy. apply match_fence_None in Hy. rewrite Hy in He. auto.
  - by apply obtain_response_files in Hr.
Qed.

Lemma load_yaml_files yamlStr st :
  exists yamlObj evs, load_yaml yamlStr st = (Ok yamlObj, logged evs st).
Proof.
  unfold load_yaml. destruct yaml as [load|].
  - destruct (load yamlStr) as [e|yamlObj].
    + eexists _, _. rewrite bind_run. unfold console_warn.
      rewrite emit_logged. reflexivity.
    + exists yamlObj, []. unfold mret, M_ret, logged. simpl.
      rewrite app_nil_r. by destruct st.
  - eexists _, _. rewrite bind_run. unfold console_warn.
    rewrite emit_logged. reflexivity.
Qed.

Lemma write_serializations_run yamlStr jsonStr output st :
  exists st',
    write_serializations yamlStr jsonStr output st = (Ok tt, st')
    /\ files st' = <[ jsonPath output := toWellFormed jsonStr ]>
                     (<[ yamlPath output := toWellFormed yamlStr ]> (files st))
    /\ network st' = network st.
Proof.
  destruct (accepted_fixed output) as (Hy & Hj & _).
  unfold write_serializations. cbv zeta.
  rewrite bind_run. unfold writeFileSync at 1. rewrite Hy.
  rewrite bind_run. unfold writeFileSync at 1. rewrite Hj.
  eexists. split; [reflexivity|]. split; reflexivity.
Qed.

(** C1, on the code.  When JSON.parse rejects the extracted JSON block the
    run fails with the parse error, and it does so after the two block
    texts have been written: the files of the resulting state are the
    files before with storyboard.yaml and storyboard.json added (nothing
    else is written), each holding the UTF-8 encoding of its block. *)
Theorem parse_error_after_serializations (reply output message : jsstring)
    (b : blocks) (st : state) :
  extractBlocks (VStr reply) = Ok b ->
  JSON_parse (blocks_json b) = inl message ->
  exists st',
    process_response (VStr reply) output st = (Throw (ParseError message), st')
    /\ files st' = <[ jsonPath output := toWellFormed (blocks_json b) ]>
                     (<[ yamlPath output := toWellFormed (blocks_yaml b) ]> (files st))
    /\ files st' !! jsonPath output = Some (toWellFormed (blocks_json b)).
Proof.
  intros Hb Hj. unfold process_response. rewrite bind_run. unfold lift.
  rewrite Hb. rewrite bind_run.
  destruct (write_serializations_run (blocks_yaml b) (blocks_json b) output st)
    as (st1 & -> & Hf & _).
  rewrite bind_run. unfold validateStoryboard. rewrite bind_run.
  destruct (load_yaml_files (blocks_yaml b) st1) as (v & evs & ->).
  rewrite bind_run. unfold parse_json. rewrite Hj. unfold throw.
  eexists. split; [reflexivity|]. rewrite logged_files, Hf.
  split; [done|]. by rewrite lookup_insert_eq.
Qed.

(** C2, amended.  When the first opening marker of each tag is followed
    by [c :: rest] and the first closing marker in [rest] comes after
    [body], the extracted block is [c :: body] with the white space at its
    two ends removed ([trim]); the run writes the two trimmed texts to
    storyboard.yaml and storyboard.json as UTF-8 and goes on from the state
    in which the two files hold them; and a trimmed text without a lone
    surrogate is in its file as it is. *)
Theorem serializations_are_trimmed_blocks
    (reply output preY restY bodyY postY preJ restJ bodyJ postJ : jsstring)
    (cY cJ : N) (st : state) :
  split_at_first (OPEN (js "yaml")) reply = Some (preY, cY :: restY) ->
  split_at_first FENCE restY = Some (bodyY, postY) ->
  split_at_first (OPEN (js "json")) reply = Some (preJ, cJ :: restJ) ->
  split_at_first FENCE restJ = Some (bodyJ, postJ) ->
  extractBlocks (VStr reply) =
    Ok {| blocks_yaml := trim (cY :: bodyY);
          blocks_json := trim (cJ :: bodyJ);
          blocks_summary := trim postJ |}
  /\ (exists st1,
        write_serializations (trim (cY :: bodyY)) (trim (cJ :: bodyJ)) output st = (Ok tt, st1)
        /\ files st1 = <[ jsonPath output := toWellFormed (trim (cJ :: bodyJ)) ]>
                         (<[ yamlPath output := toWellFormed (trim (cY :: bodyY)) ]> (files st))
        /\ process_response (VStr reply) output st =
           (validateStoryboard (trim (cY :: bodyY)) (trim (cJ :: bodyJ)) ≫=
              (fun '(_, jsonObj) =>
                 emit_derived jsonObj (trim postJ) output;;
                 console_log (js "[storyboard_tool] Done."))) st1)
  /\ (isWellFormed (trim (cY :: bodyY)) = true ->
      toWellFormed (trim (cY :: bodyY)) = trim (cY :: bodyY))
  /\ (isWellFormed (trim (cJ :: bodyJ)) = true ->
      toWellFormed (trim (cJ :: bodyJ)) = trim (cJ :: bodyJ)).
Proof.
  intros Hy1 Hy2 Hj1 Hj2.
  assert (Hb : extractBlocks (VStr reply) =
                 Ok {| blocks_yaml := trim (cY :: bodyY);
                       blocks_json := trim (cJ :: bodyJ);
                       blocks_summary := trim postJ |}).
  { unfold extractBlocks.
    rewrite (match_fence_at _ _ _ _ _ _ _ Hy1 Hy2), (match_fence_at _ _ _ _ _ _ _ Hj1 Hj2).
    cbn [index m0 m1]. do 3 f_equal.
    apply slice_after_match.
    apply split_at_first_Some in Hj1, Hj2. subst restJ. rewrite Hj1.
    unfold OPEN. by rewrite <- !app_assoc. }
  split; [exact Hb|]. split; [|split; apply toWellFormed_isWellFormed].
  destruct (write_serializations_run (trim (cY :: bodyY)) (trim (cJ :: bodyJ)) output st)
    as (st1 & Hw & Hf & _).
  exists st1. split; [exact Hw|]. split; [exact Hf|].
  unfold process_response. rewrite bind_run. unfold lift. rewrite Hb.
  cbn [blocks_yaml blocks_json blocks_summary].
  rewrite bind_run, Hw. reflexivity.
Qed.

End Pipeline.

(** ** Effects of the steps that write *)

Lemma apply_writes_app ws1 ws2 m :
  apply_writes (ws1 ++ ws2) m = apply_writes ws2 (apply_writes ws1 m).
Proof. revert m. induction ws1 as [|w ws1 IH]; intros m; simpl; [done|apply IH]. Qed.



Lemma perform_no_effect st : perform no_effect st = st.
Proof.
  destruct st. unfold perform. simpl. f_equal.
  - set_solver.
  - apply app_nil_r.
Qed.

Lemma perform_then e1 e2 st :
  perform e2 (perform e1 st) = perform (then_effect e1 e2) st.
Proof.
  unfold perform. simpl. f_equal.
  - by rewrite apply_writes_app.
  - rewrite list_to_set_app_L. set_solver.
  - by rewrite app_assoc.
Qed.

Lemma does_ret {A} (a : A) : does (mret a) (Ok a) [].
Proof. exists no_effect. split; [done|]. intros st. by rewrite perform_no_effect. Qed.

Lemma does_lift {A} (o : outcome A) : does (lift o) o [].
Proof. exists no_effect. split; [done|]. intros st. by rewrite perform_no_effect. Qed.

Lemma does_throw {A} (e : exn) : does (throw (A := A) e) (Throw e) [].
Proof. exists no_effect. split; [done|]. intros st. by rewrite perform_no_effect. Qed.

Lemma does_emit ev : does (emit ev) (Ok tt) [].
Proof.
  exists {| written := []; made := []; printed := [ev] |}. split; [done|].
  intros st. unfold emit, perform. simpl. do 2 f_equal. set_solver.
Qed.

Lemma does_mkdirSync p : does (mkdirSync p) (Ok tt) [].
Proof.
  exists {| written := []; made := [p]; printed := [] |}. split; [done|].
  intros st. unfold mkdirSync, perform. simpl. do 2 f_equal.
  - set_solver.
  - by rewrite app_nil_r.
Qed.

Lemma does_writeFileSync {rt : Runtime} p data :
  fs_open_error p = None -> does (writeFileSync p data) (Ok tt) [(p, data)].
Proof.
  intros Hp.
  exists {| written := [(p, data)]; made := []; printed := [] |}. split; [done|].
  intros st. unfold writeFileSync, perform. rewrite Hp. simpl. do 2 f_equal.
  - set_solver.
  - by rewrite app_nil_r.
Qed.

Lemma does_writeFileSync_refused {rt : Runtime} p data e :
  fs_open_error p = Some e -> does (writeFileSync p data) (Throw e) [].
Proof.
  intros Hp. exists no_effect. split; [done|].
  intros st. unfold writeFileSync. by rewrite Hp, perform_no_effect.
Qed.

Lemma does_bind {A B} (m : M A) (f : A -> M B) a o ws1 ws2 :
  does m (Ok a) ws1 -> does (f a) o ws2 -> does (m ≫= f) o (ws1 ++ ws2).
Proof.
  intros (e1 & <- & H1) (e2 & <- & H2). exists (then_effect e1 e2).
  split; [done|]. intros st. by rewrite bind_run, H1, H2, perform_then.
Qed.

Lemma does_bind_Throw {A B} (m : M A) (f : A -> M B) e ws :
  does m (Throw e) ws -> does (m ≫= f) (Throw e) ws.
Proof.
  intros (e1 & <- & H1). exists e1. split; [done|].
  intros st. by rewrite bind_run, H1.
Qed.

Lemma does_bind_Exit {A B} (m : M A) (f : A -> M B) c ws :
  does m (Exit c) ws -> does (m ≫= f) (Exit c) ws.
Proof.
  intros (e1 & <- & H1). exists e1. split; [done|].
  intros st. by rewrite bind_run, H1.
Qed.

Lemma does_files {A} (c : M A) o ws st :
  does c o ws -> fst (c st) = o /\ files (snd (c st)) = apply_writes ws (files st)
                 /\ network (snd (c st)) = network st.
Proof. intros (e & <- & H). by rewrite H. Qed.


(** *** Runs with their directories and their output *)

Lemma runs_does {A} (c : M A) o ws ds evs : runs c o ws ds evs -> does c o ws.
Proof. intros H. by exists {| written := ws; made := ds; printed := evs |}. Qed.



Lemma runs_throw {A} (e : exn) : runs (throw (A := A) e) (Throw e) [] [] [].
Proof.
  intros st. unfold throw. change (perform _ st) with (perform no_effect st).
  by rewrite perform_no_effect.
Qed.







Lemma runs_console {A} (c : M A) o ws ds evs st :
  runs c o ws ds evs ->
  fst (c st) = o /\ console (snd (c st)) = console st ++ evs
  /\ files (snd (c st)) = apply_writes ws (files st).
Proof. intros H. by rewrite H. Qed.

(** ** The conversions throw nothing but a TypeError *)

Lemma value_nested_ind (P : value -> Prop) :
  P VUndefined -> P VNull -> (forall b, P (VBool b)) -> (forall x, P (VNum x)) ->
  (forall s, P (VStr s)) ->
  (forall items, Forall P items -> P (VArr items)) ->
  (forall props, P (VObj props)) ->
  forall v, P v.
Proof.
  intros Hu Hn Hb Hx Hs Ha Ho.
  refine (fix IH (v : value) : P v :=
    match v with
    | VUndefined => Hu
    | VNull => Hn
    | VBool b => Hb b
    | VNum x => Hx x
    | VStr s => Hs s
    | VArr items =>
      Ha items ((fix go (l : list value) : Forall P l :=
                   match l with
                   | [] => Forall_nil_2 P
                   | x :: r => Forall_cons_2 P x r (IH x) (go r)
                   end) items)
    | VObj props => Ho props
    end).
Qed.

Lemma vot_Ok {A} (a : A) : value_or_TypeError (Ok a).
Proof. left. eauto. Qed.

Lemma vot_Throw {A} : value_or_TypeError (Throw (A := A) TypeError).
Proof. by right. Qed.

Lemma vot_bind {A B} (o : outcome A) (f : A -> outcome B) :
  value_or_TypeError o -> (forall a, value_or_TypeError (f a)) ->
  value_or_TypeError (o ≫= f).
Proof. intros [[a ->]| ->] Hf; [apply Hf | apply vot_Throw]. Qed.

Create HintDb vot.
#[local] Hint Resolve vot_Ok vot_Throw : vot.

Lemma get_vot v k : value_or_TypeError (get v k).
Proof. destruct v; simpl; auto with vot. Qed.

Lemma get_opt_vot v k : value_or_TypeError (get_opt v k).
Proof. destruct v; simpl; auto with vot. Qed.

Section Conversions.
Context {rt : Runtime}.

Lemma ToString_VArr_cons x rest :
  ToString (VArr (x :: rest)) =
  (a ← match x with VUndefined | VNull => Ok [] | _ => ToString x end;
   match rest with
   | [] => Ok a
   | _ => b ← ToString (VArr rest); Ok (a ++ js "," ++ b)
   end).
Proof. reflexivity. Qed.

Lemma ToString_vot v : value_or_TypeError (ToString v).
Proof.
  induction v as [| | | | |items IH|props] using value_nested_ind;
    try (simpl; auto with vot; fail).
  - induction IH as [|x rest Hx _ IHrest]; [simpl; auto with vot|].
    rewrite ToString_VArr_cons. apply vot_bind.
    + destruct x; auto with vot.
    + intros a. destruct rest; [auto with vot|].
      apply vot_bind; [exact IHrest | auto with vot].
  - simpl. destruct (lookup_prop _ props); auto with vot.
Qed.

Lemma ToPrimitive_vot v : value_or_TypeError (ToPrimitive v).
Proof.
  destruct v; unfold ToPrimitive; auto with vot;
    (apply vot_bind; [apply ToString_vot | auto with vot]).
Qed.

Lemma ToNumber_vot v : value_or_TypeError (ToNumber v).
Proof.
  destruct v; unfold ToNumber; auto with vot;
    (apply vot_bind; [apply ToString_vot | auto with vot]).
Qed.

Lemma js_mul_vot a b : value_or_TypeError (js_mul a b).
Proof.
  unfold js_mul. apply vot_bind; [apply ToNumber_vot|]. intros x.
  apply vot_bind; [apply ToNumber_vot | auto with vot].
Qed.

Lemma js_add_vot a b : value_or_TypeError (js_add a b).
Proof.
  unfold js_add. apply vot_bind; [apply ToPrimitive_vot|]. intros pa.
  apply vot_bind; [apply ToPrimitive_vot|]. intros pb.
  destruct pa, pb;
    repeat first [ apply vot_Ok
                 | apply vot_bind; [first [apply ToString_vot | apply ToNumber_vot]|intros ?] ].
Qed.



Lemma camelCase_value_vot v : value_or_TypeError (camelCase_value v).
Proof. destruct v; simpl; auto with vot. Qed.

End Conversions.

(** ** The steps that derive artifacts *)

Lemma does_bind' {A B} (m : M A) (f : A -> M B) a o ws1 ws2 ws :
  does m (Ok a) ws1 -> does (f a) o ws2 -> ws = ws1 ++ ws2 -> does (m ≫= f) o ws.
Proof. intros ? ? ->. by eapply does_bind. Qed.





Section Derived.
Context {rt : Runtime}.


Lemma placeholder_path_vot outDir s : value_or_TypeError (placeholder_path outDir s).
Proof.
  unfold placeholder_path. apply vot_bind; [apply get_vot|]. intros id.
  apply vot_bind; [apply ToString_vot | auto with vot].
Qed.

(** One round of the loop of lines 339-345. *)
Lemma write_placeholder_does outDir slide :
  match placeholder_path outDir slide with
  | Ok p =>
    match fs_open_error p with
    | None => does (write_placeholder outDir slide) (Ok tt) [(p, [])]
    | Some e => does (write_placeholder outDir slide) (Throw e) []
    end
  | Throw e => does (write_placeholder outDir slide) (Throw e) []
  | Exit c => does (write_placeholder outDir slide) (Exit c) []
  end.
Proof.
  unfold placeholder_path, write_placeholder.
  destruct (get slide (js "id")) as [id|e|c]; cbn [mbind outcome_bind].
  2:{ apply does_bind_Throw, does_lift. }
  2:{ apply does_bind_Exit, does_lift. }
  destruct (ToString id) as [s|e|c] eqn:Hs; cbn [mbind outcome_bind].
  - destruct (fs_open_error _) as [e|] eqn:Hp.
    + eapply does_bind'; [apply does_lift | cbv beta | reflexivity].
      rewrite Hs.
      eapply does_bind'; [apply does_lift | | reflexivity].
      by apply does_writeFileSync_refused.
    + eapply does_bind'; [apply does_lift | cbv beta | reflexivity].
      rewrite Hs.
      eapply does_bind'; [apply does_lift | | reflexivity].
      by apply does_writeFileSync.
  - eapply does_bind'; [apply does_lift | cbv beta | reflexivity].
    rewrite Hs. apply does_bind_Throw, does_lift.
  - eapply does_bind'; [apply does_lift | cbv beta | reflexivity].
    rewrite Hs. apply does_bind_Exit, does_lift.
Qed.

Lemma forEach_placeholders_run outDir items :
  does (forEach items (write_placeholder outDir))
       (placeholders_run outDir items).1
       (List.map (fun p => (p, [])) (placeholders_run outDir items).2).
Proof.
  induction items as [|s items IH]; cbn [forEach placeholders_run].
  - apply does_ret.
  - pose proof (write_placeholder_does outDir s) as Hs.
    destruct (placeholder_path outDir s) as [p|e|c].
    + destruct (fs_open_error p) as [e|].
      * by apply does_bind_Throw.
      * cbn [fst snd]. eapply does_bind'; [exact Hs | exact IH | reflexivity].
    + by apply does_bind_Throw.
    + by apply does_bind_Exit.
Qed.



(** The loop ends normally, with a TypeError, or with the error of a
    refused path. *)
Lemma placeholders_run_outcome outDir items :
  match (placeholders_run outDir items).1 with
  | Ok _ => True
  | Throw e => e = TypeError \/ exists p, fs_open_error p = Some e
  | Exit _ => False
  end.
Proof.
  induction items as [|s items IH]; cbn [placeholders_run]; [done|].
  destruct (placeholder_path_vot outDir s) as [[p ->]| ->].
  - destruct (fs_open_error p) as [e|] eqn:Hp; cbn [fst]; [|exact IH].
    right. by exists p.
  - cbn [fst]. by left.
Qed.


(** The loop up to the first slide that stops it. *)
Lemma placeholders_run_stop outDir good bad rest paths :
  placeholder_paths outDir good = Ok paths -> Forall accepted paths ->
  placeholders_run outDir (good ++ bad :: rest) =
  match placeholder_path outDir bad with
  | Ok p =>
    match fs_open_error p with
    | None => ((placeholders_run outDir rest).1, paths ++ p :: (placeholders_run outDir rest).2)
    | Some e => (Throw e, paths)
    end
  | Throw e => (Throw e, paths)
  | Exit c => (Exit c, paths)
  end.
Proof.
  revert paths. induction good as [|s good IH]; intros paths.
  - intros [= <-] _. rewrite app_nil_l. cbn [placeholders_run].
    destruct (placeholder_path outDir bad) as [p| |]; [|done..].
    by destruct (fs_open_error p).
  - rewrite <- app_comm_cons. cbn [placeholder_paths placeholders_run].
    destruct (placeholder_path outDir s) as [q| |]; [|discriminate..].
    cbn [mbind outcome_bind].
    destruct (placeholder_paths outDir good) as [ps| |]; [|discriminate..].
    cbn [mbind outcome_bind]. intros [= <-] Hacc.
    apply Forall_cons in Hacc as [Hq Hps]. unfold accepted in Hq. rewrite Hq.
    rewrite (IH ps eq_refl Hps).
    destruct (placeholder_path outDir bad) as [p| |]; [|done..].
    by destruct (fs_open_error p).
Qed.

Lemma createVoiceoverPlaceholders_unfold storyboard outDir :
  createVoiceoverPlaceholders storyboard outDir =
  (mkdirSync (voiceDir_of outDir);;
   slides ← lift (get storyboard (js "slides"));
   match slides with
   | VArr items =>
     forEach items (write_placeholder outDir);;
     console_log (js "[storyboard_tool] Wrote " ++
                  Number_toString (nat_to_float (length items)) ++
                  js " placeholder voice‑over files to " ++ voiceDir_of outDir)
   | _ => throw TypeError
   end).
Proof. reflexivity. Qed.

(** What the placeholder writer does on an array of slides. *)
Lemma createVoiceoverPlaceholders_does storyboard outDir items :
  get storyboard (js "slides") = Ok (VArr items) ->
  does (createVoiceoverPlaceholders storyboard outDir)
       (placeholders_run outDir items).1
       (List.map (fun p => (p, [])) (placeholders_run outDir items).2).
Proof.
  intros Hs. rewrite createVoiceoverPlaceholders_unfold.
  eapply does_bind'; [apply does_mkdirSync | | reflexivity].
  rewrite Hs. eapply does_bind'; [apply does_lift | | reflexivity].
  pose proof (forEach_placeholders_run outDir items) as Hf.
  destruct (placeholders_run outDir items) as [[[]|e|c] ps]; cbn [fst snd] in *.
  - eapply does_bind'; [exact Hf | apply does_emit | by rewrite app_nil_r].
  - by apply does_bind_Throw.
  - by apply does_bind_Exit.
Qed.


Lemma createVoiceoverPlaceholders_not_array storyboard outDir :
  (forall items, get storyboard (js "slides") <> Ok (VArr items)) ->
  does (createVoiceoverPlaceholders storyboard outDir) (Throw TypeError) [].
Proof.
  intros Hs. rewrite createVoiceoverPlaceholders_unfold.
  eapply does_bind'; [apply does_mkdirSync | | reflexivity].
  destruct (get_vot storyboard (js "slides")) as [[slides E]|E]; rewrite E.
  - eapply does_bind'; [apply does_lift | | reflexivity].
    destruct slides; try apply does_throw. by destruct (Hs items).
  - apply does_bind_Throw, does_lift.
Qed.

(** The placeholder writer ends normally, with a TypeError, or with the
    error of a refused path, and from every state in the same way. *)
Lemma createVoiceoverPlaceholders_cases storyboard outDir :
  exists o ws,
    does (createVoiceoverPlaceholders storyboard outDir) o ws
    /\ match o with
       | Ok _ => True
       | Throw e => e = TypeError \/ exists p, fs_open_error p = Some e
       | Exit _ => False
       end.
Proof.
  destruct (get storyboard (js "slides")) as [slides| |] eqn:E.
  - destruct slides as [| | | | |items|];
      try (exists (Throw TypeError), []; split; [|by left];
           apply createVoiceoverPlaceholders_not_array;
           intros items; rewrite E; discriminate).
    eexists _, _. split; [by apply createVoiceoverPlaceholders_does|].
    apply placeholders_run_outcome.
  - exists (Throw TypeError), []. split; [|by left].
    apply createVoiceoverPlaceholders_not_array. intros items; rewrite E; discriminate.
  - exists (Throw TypeError), []. split; [|by left].
    apply createVoiceoverPlaceholders_not_array. intros items; rewrite E; discriminate.
Qed.


(** What [writeVideoTsx] does: nothing but a warning without [meta], a
    TypeError, or one file. *)
Lemma render_tsx_vot meta : value_or_TypeError (render_tsx meta).
Proof.
  unfold render_tsx.
  repeat first
    [ apply vot_Ok
    | apply vot_bind;
      [ first [ apply get_vot | apply get_opt_vot | apply js_mul_vot
              | apply camelCase_value_vot | apply ToString_vot ]
      | intros ? ] ].
Qed.

Lemma writeVideoTsx_cases storyboard outDir :
  (exists meta, get storyboard (js "meta") = Ok meta /\ truthy meta = false
                /\ does (writeVideoTsx storyboard outDir) (Ok tt) [])
  \/ does (writeVideoTsx storyboard outDir) (Throw TypeError) []
  \/ (exists meta tsx, get storyboard (js "meta") = Ok meta /\ truthy meta = true
        /\ render_tsx meta = Ok tsx
        /\ does (writeVideoTsx storyboard outDir) (Ok tt) [(tsxPath outDir, tsx)]).
Proof.
  unfold writeVideoTsx.
  destruct (get_vot storyboard (js "meta")) as [[meta E]|E]; rewrite E.
  2:{ right; left. apply does_bind_Throw, does_lift. }
  destruct (truthy meta) eqn:Ht.
  - destruct (render_tsx_vot meta) as [[tsx Ho]|Ho].
    + right; right. exists meta, tsx. do 3 (split; [done|]).
      eapply does_bind'; [apply does_lift | cbv beta | reflexivity].
      rewrite Ht. cbn [negb]. cbv iota. rewrite Ho.
      eapply does_bind'; [apply does_lift | | reflexivity].
      eapply does_bind'; [apply does_writeFileSync | apply does_emit | reflexivity].
      apply (accepted_fixed outDir).
    + right; left.
      eapply does_bind'; [apply does_lift | cbv beta | reflexivity].
      rewrite Ht. cbn [negb]. cbv iota. rewrite Ho.
      apply does_bind_Throw, does_lift.
  - left. exists meta. split; [done|]. split; [done|].
    eapply does_bind'; [apply does_lift | cbv beta | reflexivity].
    rewrite Ht. apply does_emit.
Qed.

Lemma writeVideoTsx_does_Ok storyboard outDir meta tsx :
  get storyboard (js "meta") = Ok meta -> truthy meta = true ->
  render_tsx meta = Ok tsx ->
  does (writeVideoTsx storyboard outDir) (Ok tt) [(tsxPath outDir, tsx)].
Proof.
  intros Hm Ht Hr. unfold writeVideoTsx. rewrite Hm.
  eapply does_bind'; [apply does_lift | cbv beta iota | reflexivity].
  rewrite Ht. cbn [negb]. cbv iota. rewrite Hr.
  eapply does_bind'; [apply does_lift | cbv beta iota | reflexivity].
  eapply does_bind'; [apply does_writeFileSync | apply does_emit | reflexivity].
  apply (accepted_fixed outDir).
Qed.

Lemma write_summary_does summary output :
  does (write_summary summary output) (Ok tt)
       (match summary with [] => [] | _ => [(summaryPath output, trim summary)] end).
Proof.
  destruct summary; [apply does_ret|].
  eapply does_bind'; [apply does_writeFileSync | apply does_emit | reflexivity].
  apply (accepted_fixed output).
Qed.

Lemma write_serializations_does yamlStr jsonStr output :
  does (write_serializations yamlStr jsonStr output) (Ok tt)
       [(yamlPath output, yamlStr); (jsonPath output, jsonStr)].
Proof.
  destruct (accepted_fixed output) as (Hy & Hj & _).
  eapply does_bind'; [by apply does_writeFileSync | | reflexivity].
  eapply does_bind'; [by apply does_writeFileSync | apply does_emit | reflexivity].
Qed.




End Derived.

(** ** The validator *)

Lemma does_ext {A} (c c' : M A) o ws :
  (forall st, c st = c' st) -> does c' o ws -> does c o ws.
Proof. intros Hext (e & <- & H). exists e. split; [done|]. intros st. by rewrite Hext. Qed.

Ltac dstep := eapply does_bind'; [apply does_lift | cbv beta iota | reflexivity].
Ltac dthrow := apply does_bind_Throw, does_lift.

Section Validator.
Context {rt : Runtime}.

Lemma sum_durations_vot items sum : value_or_TypeError (sum_durations sum items).
Proof.
  revert sum. induction items as [|s items IH]; intros sum; simpl; [apply vot_Ok|].
  apply vot_bind; [apply get_vot|]. intros d.
  apply vot_bind; [apply js_add_vot|]. intros sum'. apply IH.
Qed.

Lemma load_yaml_does yamlStr :
  exists yamlObj,
    does (load_yaml yamlStr) (Ok yamlObj) []
    /\ (yamlObj = Tree VNull \/ exists load, yaml = Some load /\ load yamlStr = inr yamlObj).
Proof.
  unfold load_yaml. destruct yaml as [load|].
  - destruct (load yamlStr) as [e|yamlObj] eqn:E.
    + eexists. split; [|by left].
      eapply does_bind'; [apply does_emit | apply does_ret | reflexivity].
    + exists yamlObj. split; [apply does_ret|]. right. eauto.
  - eexists. split; [|by left].
    eapply does_bind'; [apply does_emit | apply does_ret | reflexivity].
Qed.

Lemma compare_yaml_json_does yamlObj jsonObj :
  match yamlObj with
  | Tree _ => does (compare_yaml_json yamlObj jsonObj) (Ok tt) []
  | NotJSON e => does (compare_yaml_json yamlObj jsonObj) (Throw e) []
  end.
Proof.
  unfold compare_yaml_json. destruct yamlObj as [v|e]; [|apply does_throw].
  destruct (truthy v); [|apply does_ret].
  destruct (bool_decide _); [apply does_ret | apply does_emit].
Qed.

Lemma check_durations_cases jsonObj :
  does (check_durations jsonObj) (Ok tt) []
  \/ does (check_durations jsonObj) (Throw TypeError) [].
Proof.
  unfold check_durations.
  destruct (get_vot jsonObj (js "meta")) as [[meta E]|E]; rewrite E.
  2:{ right. dthrow. }
  destruct (truthy meta) eqn:Ht.
  2:{ left. dstep. rewrite Ht. apply does_ret. }
  destruct (get_vot jsonObj (js "slides")) as [[slides Es]|Es].
  2:{ right. dstep. rewrite Ht, Es. dthrow. }
  destruct slides as [| | | | |items|];
    try (left; dstep; rewrite Ht, Es; dstep; apply does_ret).
  destruct (sum_durations_vot items (VNum 0%float)) as [[total Et]|Et].
  2:{ right. dstep. rewrite Ht, Es. dstep. rewrite Et. dthrow. }
  destruct (get_vot meta (js "totalDurationSec")) as [[declared Ed]|Ed].
  2:{ right. dstep. rewrite Ht, Es. dstep. rewrite Et. dstep. rewrite Ed. dthrow. }
  destruct (truthy declared && strict_neq total declared) eqn:Hc.
  2:{ left. dstep. rewrite Ht, Es. dstep. rewrite Et. dstep. rewrite Ed. dstep.
      rewrite Hc. apply does_ret. }
  destruct (ToString_vot declared) as [[d Hd]|Hd].
  2:{ right. dstep. rewrite Ht, Es. dstep. rewrite Et. dstep. rewrite Ed. dstep.
      rewrite Hc, Hd. dthrow. }
  destruct (ToString_vot total) as [[t Htt]|Htt].
  2:{ right. dstep. rewrite Ht, Es. dstep. rewrite Et. dstep. rewrite Ed. dstep.
      rewrite Hc, Hd. dstep. rewrite Htt. dthrow. }
  left. dstep. rewrite Ht, Es. dstep. rewrite Et. dstep. rewrite Ed. dstep.
  rewrite Hc, Hd. dstep. rewrite Htt. dstep. apply does_emit.
Qed.

(** How [validateStoryboard] ends once the JSON text has parsed: with the
    parsed object, with the TypeError of the duration check, or with what
    line 217 throws on the structure js-yaml returned. *)
Lemma validateStoryboard_cases yamlStr jsonStr jsonObj :
  JSON_parse jsonStr = inr jsonObj ->
  (exists yamlObj, does (check_durations jsonObj) (Ok tt) []
                   /\ does (validateStoryboard yamlStr jsonStr) (Ok (yamlObj, jsonObj)) [])
  \/ (does (check_durations jsonObj) (Throw TypeError) []
      /\ does (validateStoryboard yamlStr jsonStr) (Throw TypeError) [])
  \/ (exists load e, yaml = Some load /\ load yamlStr = inr (NotJSON e)
        /\ does (validateStoryboard yamlStr jsonStr) (Throw e) []).
Proof.
  intros Hj. unfold validateStoryboard, parse_json. rewrite Hj.
  destruct (load_yaml_does yamlStr) as (yamlObj & Hy & Hfrom).
  pose proof (compare_yaml_json_does yamlObj jsonObj) as Hcmp.
  destruct yamlObj as [v|e].
  - destruct (check_durations_cases jsonObj) as [Hc|Hc];
      [left; exists (Tree v)|right; left]; (split; [exact Hc|]).
    + eapply does_bind'; [exact Hy | cbv beta | reflexivity].
      eapply does_bind'; [apply does_ret | cbv beta | reflexivity].
      eapply does_bind'; [exact Hcmp | cbv beta | reflexivity].
      eapply does_bind'; [exact Hc | apply does_ret | reflexivity].
    + eapply does_bind'; [exact Hy | cbv beta | reflexivity].
      eapply does_bind'; [apply does_ret | cbv beta | reflexivity].
      eapply does_bind'; [exact Hcmp | cbv beta | reflexivity].
      apply does_bind_Throw, Hc.
  - right; right. destruct Hfrom as [?|(load & Hl & He)]; [discriminate|].
    exists load, e. split; [exact Hl|]. split; [exact He|].
    eapply does_bind'; [exact Hy | cbv beta | reflexivity].
    eapply does_bind'; [apply does_ret | cbv beta | reflexivity].
    apply does_bind_Throw, Hcmp.
Qed.





Lemma validateStoryboard_does yamlStr jsonStr jsonObj o :
  JSON_parse jsonStr = inr jsonObj ->
  yaml_serialisable yamlStr ->
  does (check_durations jsonObj) o [] ->
  exists yamlObj,
    does (validateStoryboard yamlStr jsonStr)
         (match o with
          | Ok _ => Ok (yamlObj, jsonObj)
          | Throw e => Throw e
          | Exit c => Exit c
          end) [].
Proof.
  intros Hj Hser Hc. unfold validateStoryboard, parse_json. rewrite Hj.
  destruct (load_yaml_does yamlStr) as (yamlObj & Hy & Hfrom).
  pose proof (compare_yaml_json_does yamlObj jsonObj) as Hcmp.
  destruct yamlObj as [v|e].
  2:{ destruct Hfrom as [?|(load & Hl & He)]; [discriminate|]. by destruct (Hser load e). }
  exists (Tree v).
  eapply does_bind'; [exact Hy | cbv beta | reflexivity].
  eapply does_bind'; [apply does_ret | cbv beta | reflexivity].
  eapply does_bind'; [exact Hcmp | cbv beta | reflexivity].
  destruct o as [[]|e|c].
  - eapply does_bind'; [exact Hc | apply does_ret | reflexivity].
  - by apply does_bind_Throw.
  - by apply does_bind_Exit.
Qed.

Lemma validateStoryboard_not_json yamlStr jsonStr jsonObj load e :
  JSON_parse jsonStr = inr jsonObj ->
  yaml = Some load -> load yamlStr = inr (NotJSON e) ->
  does (validateStoryboard yamlStr jsonStr) (Throw e) [].
Proof.
  intros Hj Hy He. unfold validateStoryboard, parse_json, load_yaml.
  rewrite Hj, Hy, He.
  eapply does_bind'; [apply does_ret | cbv beta | reflexivity].
  eapply does_bind'; [apply does_ret | cbv beta | reflexivity].
  apply does_bind_Throw, does_throw.
Qed.

(** With a [meta] and without an array of slides the duration check has
    nothing to do. *)
Lemma check_durations_not_array jsonObj meta :
  get jsonObj (js "meta") = Ok meta -> truthy meta = true ->
  (forall items, get jsonObj (js "slides") <> Ok (VArr items)) ->
  does (check_durations jsonObj) (Ok tt) [].
Proof.
  intros Hm Ht Hs. unfold check_durations. rewrite Hm. dstep. rewrite Ht.
  assert (exists slides, get jsonObj (js "slides") = Ok slides) as [slides E].
  { destruct jsonObj; simpl in Hm |- *; try discriminate; eauto. }
  rewrite E. dstep. destruct slides; try apply does_ret. by destruct (Hs items).
Qed.

(** The run from the reply on: the two serializations are written, then
    the rest is run. *)
Lemma process_response_after_serializations reply output b o ws :
  extractBlocks (VStr reply) = Ok b ->
  does (validateStoryboard (blocks_yaml b) (blocks_json b) ≫=
          (fun '(_, jsonObj) => emit_derived jsonObj (blocks_summary b) output;;
                                console_log (js "[storyboard_tool] Done."))) o ws ->
  does (process_response (VStr reply) output) o
       ([(yamlPath output, blocks_yaml b); (jsonPath output, blocks_json b)] ++ ws).
Proof.
  intros Hb H. unfold process_response. rewrite Hb. dstep.
  eapply does_bind'; [apply write_serializations_does | exact H | reflexivity].
Qed.

(** C10, amended.  When the [slides] field of the parsed structure is
    missing or is not an array, the placeholder writer throws a TypeError
    before it writes a file.  The run then fails with a TypeError after
    storyboard.yaml and storyboard.json have been written, and after
    Video.tsx exactly when [meta] is present and its text can be rendered
    (it is not written when [meta] is absent); this provided js-yaml
    returns for the YAML block nothing that line 217 throws on, for
    otherwise the run fails with that exception before Video.tsx. *)
Theorem slides_not_array_fails (reply output : jsstring) (b : blocks) (jsonObj : value) :
  extractBlocks (VStr reply) = Ok b ->
  JSON_parse (blocks_json b) = inr jsonObj ->
  (forall items, get jsonObj (js "slides") <> Ok (VArr items)) ->
  does (createVoiceoverPlaceholders jsonObj output) (Throw TypeError) []
  /\ (yaml_serialisable (blocks_yaml b) ->
      (forall meta tsx,
         get jsonObj (js "meta") = Ok meta -> truthy meta = true ->
         render_tsx meta = Ok tsx ->
         does (process_response (VStr reply) output) (Throw TypeError)
              [(yamlPath output, blocks_yaml b); (jsonPath output, blocks_json b);
               (tsxPath output, tsx)])
      /\ ((forall meta tsx,
             get jsonObj (js "meta") = Ok meta -> truthy meta = true ->
             render_tsx meta <> Ok tsx) ->
          does (process_response (VStr reply) output) (Throw TypeError)
               [(yamlPath output, blocks_yaml b); (jsonPath output, blocks_json b)]))
  /\ (forall load e,
        yaml = Some load -> load (blocks_yaml b) = inr (NotJSON e) ->
        does (process_response (VStr reply) output) (Throw e)
             [(yamlPath output, blocks_yaml b); (jsonPath output, blocks_json b)]).
Proof.
  intros Hb Hj Hs.
  pose proof (createVoiceoverPlaceholders_not_array jsonObj output Hs) as Hc.
  split; [exact Hc|]. split.
  - intros Hser. split.
    + intros meta tsx Hm Ht Hr.
      pose proof (check_durations_not_array _ _ Hm Ht Hs) as Hcheck.
      destruct (validateStoryboard_does (blocks_yaml b) _ _ _ Hj Hser Hcheck)
        as [yamlObj Hv].
      apply (process_response_after_serializations _ _ _ _ [(tsxPath output, tsx)] Hb).
      eapply does_bind'; [exact Hv | cbv beta iota | reflexivity].
      apply does_bind_Throw. unfold emit_derived.
      eapply does_bind'; [by apply (writeVideoTsx_does_Ok _ _ meta tsx) | | by rewrite app_nil_r].
      by apply does_bind_Throw.
    + intros Hno.
      apply (process_response_after_serializations _ _ _ _ [] Hb).
      destruct (validateStoryboard_cases (blocks_yaml b) _ _ Hj)
        as [(yamlObj & _ & Hv)|[[_ Hv]|(load & e & Hl & He & _)]].
      * eapply does_bind'; [exact Hv | cbv beta iota | reflexivity].
        apply does_bind_Throw. unfold emit_derived.
        destruct (writeVideoTsx_cases jsonObj output)
          as [(meta & Hm & Ht & Hw)|[Hw|(meta & tsx & Hm & Ht & Hr & Hw)]].
        -- eapply does_bind'; [exact Hw | | reflexivity]. by apply does_bind_Throw.
        -- by apply does_bind_Throw.
        -- by destruct (Hno meta tsx Hm Ht).
      * by apply does_bind_Throw.
      * by destruct (Hser load e).
  - intros load e Hl He.
    apply (process_response_after_serializations _ _ _ _ [] Hb).
    apply does_bind_Throw. by eapply validateStoryboard_not_json.
Qed.

End Validator.

(** ** The duration scenario *)

Section Scenario.
Context {rt : Runtime}.













End Scenario.

(** ** The theorems at concrete inputs *)

(** The js-yaml of the sample runtimes returns trees only. *)
Lemma sample_yaml_serialisable jsons yamls content yamlStr :
  yaml_serialisable (rt := Sample.runtime jsons yamls content) yamlStr.
Proof.
  intros load e [= <-]. unfold Sample.load.
  destruct (List.find _ yamls); discriminate.
Qed.

Lemma parse_error_after_serializations_witness :
  exists st',
    process_response (rt := Sample.broken_runtime) (VStr Sample.broken_reply) (js "out")
      Sample.state0 = (Throw (ParseError (js "Unexpected token")), st')
    /\ files st' = <[ jsonPath (rt := Sample.broken_runtime) (js "out") :=
                      toWellFormed (blocks_json Sample.broken_blocks) ]>
                     (<[ yamlPath (rt := Sample.broken_runtime) (js "out") :=
                         toWellFormed (blocks_yaml Sample.broken_blocks) ]>
                        (files Sample.state0))
    /\ files st' !! jsonPath (rt := Sample.broken_runtime) (js "out")
       = Some (toWellFormed (blocks_json Sample.broken_blocks)).
Proof.
  apply (parse_error_after_serializations (rt := Sample.broken_runtime)
           Sample.broken_reply (js "out") (js "Unexpected token")
           Sample.broken_blocks Sample.state0);
    vm_compute; reflexivity.
Defined.

(** C2 as stated fails: the text between the markers of the YAML block is
    two indented lines, and the file holds them without the indentation of
    the first line and without the final line break. *)
Lemma serialization_is_not_verbatim :
  Sample.indented_reply =
    FENCE ++ js "yaml" ++ nl ++ Sample.indented_body ++ FENCE ++ nl ++
    FENCE ++ js "json" ++ nl ++ js "{}" ++ nl ++ FENCE
  /\ files (snd (process_response (rt := Sample.indented_runtime)
                   (VStr Sample.indented_reply) (js "out") Sample.state0))
       !! js "out/storyboard.yaml" = Some (js "a: 1" ++ nl ++ js "  b: 2")
  /\ js "a: 1" ++ nl ++ js "  b: 2" <> Sample.indented_body.
Proof. split; [reflexivity|]. split; [by vm_compute|]. by vm_compute. Qed.

Lemma serializations_are_trimmed_blocks_witness :
  let rt := Sample.indented_runtime in
  let yamlStr := trim (32 :: js " a: 1" ++ nl ++ js "  b: 2" ++ nl) in
  let jsonStr := trim (123 :: js "}" ++ nl) in
  extractBlocks (VStr Sample.indented_reply) =
    Ok {| blocks_yaml := yamlStr; blocks_json := jsonStr; blocks_summary := trim [] |}
  /\ (exists st1,
        write_serializations (rt := rt) yamlStr jsonStr (js "out") Sample.state0 = (Ok tt, st1)
        /\ files st1 = <[ jsonPath (rt := rt) (js "out") := toWellFormed jsonStr ]>
                         (<[ yamlPath (rt := rt) (js "out") := toWellFormed yamlStr ]>
                            (files Sample.state0))
        /\ process_response (rt := rt) (VStr Sample.indented_reply) (js "out") Sample.state0 =
           (validateStoryboard (rt := rt) yamlStr jsonStr ≫=
              (fun '(_, jsonObj) =>
                 emit_derived (rt := rt) jsonObj (trim []) (js "out");;
                 console_log (js "[storyboard_tool] Done."))) st1)
  /\ (isWellFormed yamlStr = true -> toWellFormed yamlStr = yamlStr)
  /\ (isWellFormed jsonStr = true -> toWellFormed jsonStr = jsonStr).
Proof.
  intros rt yamlStr jsonStr.
  exact (serializations_are_trimmed_blocks (rt := rt) Sample.indented_reply (js "out")
           [] (js " a: 1" ++ nl ++ js "  b: 2" ++ nl ++ FENCE ++ nl ++
               FENCE ++ js "json" ++ nl ++ js "{}" ++ nl ++ FENCE)
           (js " a: 1" ++ nl ++ js "  b: 2" ++ nl)
           (nl ++ FENCE ++ js "json" ++ nl ++ js "{}" ++ nl ++ FENCE)
           (FENCE ++ js "yaml" ++ nl ++ Sample.indented_body ++ FENCE ++ nl)
           (js "}" ++ nl ++ FENCE) (js "}" ++ nl) [] 32 123 Sample.state0
           ltac:(vm_compute; reflexivity) ltac:(vm_compute; reflexivity)
           ltac:(vm_compute; reflexivity) ltac:(vm_compute; reflexivity)).
Defined.





(** C7 as stated fails: a reply without any block has no JSON block, and
    the error is the one of the YAML block. *)
Lemma no_block_is_a_yaml_error :
  ~ fenced_block (js "json") Sample.refusal
  /\ extractBlocks (VStr Sample.refusal)
     = Throw ExtractionError_YAML
  /\ ExtractionError_YAML <> ExtractionError_JSON.
Proof.
  split; [apply match_fence_None; by vm_compute|].
  split; [by vm_compute|]. by vm_compute.
Qed.

Lemma missing_json_block_witness :
  let rt := Sample.runtime [] [] Sample.yaml_only in
  let st := snd (obtain_response (rt := rt) (js "research.md") (js "out") Sample.state0) in
  extractBlocks (VStr Sample.yaml_only) = Throw ExtractionError_JSON
  /\ pipeline (rt := rt) (js "research.md") (js "out") Sample.state0
     = (Throw ExtractionError_JSON, st)
  /\ files st = files Sample.state0.
Proof.
  intros rt st.
  assert (Hj : ~ fenced_block (js "json") Sample.yaml_only)
    by (apply match_fence_None; by vm_compute).
  assert (Hy : fenced_block (js "yaml") Sample.yaml_only).
  { exists [], (Sample.yaml_text ++ nl), []. split; [by vm_compute | by vm_compute]. }
  destruct (missing_json_block (rt := rt) Sample.yaml_only (js "research.md") (js "out")
              Sample.state0 st Hj ltac:(vm_compute; reflexivity)) as (H1 & _ & H3).
  destruct (H1 Hy) as [H4 H5].
  split; [exact H4|]. split; [exact H5 | exact H3].
Defined.

Lemma missing_credential_no_network_witness :
  callOpenAI (rt := Sample.broken_runtime) (js "prompt") Sample.state_without_key
    = (Throw ConfigurationError, Sample.state_without_key)
  /\ exists st',
       pipeline (rt := Sample.broken_runtime) (js "research.md") (js "out")
         Sample.state_without_key = (Throw ConfigurationError, st')
       /\ network st' = network Sample.state_without_key
       /\ files st' = files Sample.state_without_key.
Proof.
  destruct (missing_credential_no_network (rt := Sample.broken_runtime) (js "prompt")
              Sample.state_without_key eq_refl) as [H1 H2].
  split; [exact H1|].
  exact (H2 (js "research.md") (js "out") (js "AI helps in three ways.")
            ltac:(vm_compute; reflexivity)).
Defined.


(** C10 as stated fails: for the structure [{}] the run fails in the
    placeholder writer, and Video.tsx has not been written (there is no
    [meta]); storyboard.yaml and storyboard.json have. *)
Lemma no_slides_no_meta_no_video :
  let st' := snd (process_response (rt := Sample.indented_runtime)
                    (VStr Sample.indented_reply) (js "out") Sample.state0) in
  JSON_parse (Runtime := Sample.indented_runtime) (js "{}") = inr (VObj [])
  /\ get (VObj []) (js "slides") = Ok VUndefined
  /\ fst (process_response (rt := Sample.indented_runtime)
            (VStr Sample.indented_reply) (js "out") Sample.state0) = Throw TypeError
  /\ files st' !! js "out/Video.tsx" = None
  /\ files st' !! js "out/storyboard.json" = Some (js "{}").
Proof. by vm_compute. Qed.

Lemma slides_not_array_fails_witness :
  let rt := Cases.meta_only_runtime in
  let b := Cases.meta_only_blocks in
  does (createVoiceoverPlaceholders (rt := rt) Cases.meta_only (js "out")) (Throw TypeError) []
  /\ does (process_response (rt := rt) (VStr Cases.meta_only_reply) (js "out"))
          (Throw TypeError)
          [(yamlPath (rt := rt) (js "out"), blocks_yaml b);
           (jsonPath (rt := rt) (js "out"), blocks_json b);
           (tsxPath (rt := rt) (js "out"),
            tsx_text (camelCase (rt := rt) (js "3-ways-ai-helps"))
                     (Number_toString (Runtime := rt) 0%float)
                     (Number_toString (Runtime := rt) 30%float)
                     (Number_toString (Runtime := rt) 1920%float)
                     (Number_toString (Runtime := rt) 1080%float))].
Proof.
  intros rt b.
  destruct (slides_not_array_fails (rt := rt) Cases.meta_only_reply (js "out") b
              Cases.meta_only) as (H1 & H2 & _).
  - vm_compute; reflexivity.
  - vm_compute; reflexivity.
  - intros items. vm_compute. discriminate.
  - split; [exact H1|].
    apply (proj1 (H2 (sample_yaml_serialisable _ _ _ _))
             (VObj [(js "videoId", VStr (js "3-ways-ai-helps"))]));
      vm_compute; reflexivity.
Defined.

(** ** The command line *)

Lemma adjacent_cons (a b x : jsstring) (l : list jsstring) :
  adjacent a b l -> adjacent a b (x :: l).
Proof. intros (l1 & l2 & ->). by exists (x :: l1), l2. Qed.

Lemma adjacent_elem (a b : jsstring) (l : list jsstring) : adjacent a b l -> a ∈ l.
Proof. intros (l1 & l2 & ->). set_solver. Qed.

Section CommandLine.
Context {rt : Runtime}.

Lemma is_help_elem (arg : jsstring) (l : list jsstring) :
  is_help arg = true -> arg ∈ l ->
  js "--help" ∈ l \/ js "-h" ∈ l.
Proof.
  unfold is_help. intros H Hin. apply orb_true_iff in H as [H|H];
    apply bool_decide_eq_true in H; subst; auto.
Qed.

Lemma parseArgs_loop_cons arg rest input output :
  parseArgs_loop (arg :: rest) input output =
  match rest with
  | next :: rest' =>
    if bool_decide (arg = js "--input") then parseArgs_loop rest' (Some next) output
    else if bool_decide (arg = js "--output") then parseArgs_loop rest' input (Some next)
    else if is_help arg then console_log usage;; process_exit 0
    else parseArgs_loop rest input output
  | [] =>
    if is_help arg then console_log usage;; process_exit 0
    else mret (input, output)
  end.
Proof. destruct rest; reflexivity. Qed.

(** What the loop over the arguments can end with. *)
Lemma parseArgs_loop_outcome n args input output st :
  (length args <= n)%nat ->
  match parseArgs_loop args input output st with
  | (Ok (i, o), st') =>
    st' = st
    /\ (i = input \/ exists x, i = Some x /\ adjacent (js "--input") x args)
    /\ (o = output \/ exists y, o = Some y /\ adjacent (js "--output") y args)
  | (Exit c, st') =>
    c = 0%Z /\ st' = logged [log usage] st
    /\ (js "--help" ∈ args \/ js "-h" ∈ args)
  | (Throw _, _) => False
  end.
Proof.
  revert args input output. induction n as [|n IH]; intros args input output Hn.
  { destruct args; [|simpl in Hn; lia]. simpl. auto. }
  destruct args as [|arg rest]; [simpl; auto|].
  rewrite parseArgs_loop_cons.
  destruct rest as [|next rest'].
  - destruct (is_help arg) eqn:Hh.
    + rewrite bind_run. unfold console_log. rewrite emit_logged.
      unfold process_exit. split; [done|]. split; [done|].
      apply (is_help_elem arg); [done | set_solver].
    + unfold mret, M_ret. auto.
  - destruct (bool_decide (arg = js "--input")) eqn:Hi.
    { apply bool_decide_eq_true in Hi. subst arg.
      specialize (IH rest' (Some next) output ltac:(simpl in Hn; lia)).
      destruct (parseArgs_loop rest' (Some next) output st) as [[[i o]|e|c] st'].
      - destruct IH as (-> & Hin & Hout). split; [done|]. split.
        + right. destruct Hin as [->|(x & -> & Hx)].
          * exists next. split; [done|]. by exists [], rest'.
          * exists x. split; [done|]. by do 2 apply adjacent_cons.
        + destruct Hout as [->|(y & -> & Hy)]; [by left|].
          right. exists y. split; [done|]. by do 2 apply adjacent_cons.
      - done.
      - destruct IH as (-> & -> & H). do 2 (split; [done|]). set_solver. }
    destruct (bool_decide (arg = js "--output")) eqn:Ho.
    { apply bool_decide_eq_true in Ho. subst arg.
      specialize (IH rest' input (Some next) ltac:(simpl in Hn; lia)).
      destruct (parseArgs_loop rest' input (Some next) st) as [[[i o]|e|c] st'].
      - destruct IH as (-> & Hin & Hout). split; [done|]. split.
        + destruct Hin as [->|(x & -> & Hx)]; [by left|].
          right. exists x. split; [done|]. by do 2 apply adjacent_cons.
        + right. destruct Hout as [->|(y & -> & Hy)].
          * exists next. split; [done|]. by exists [], rest'.
          * exists y. split; [done|]. by do 2 apply adjacent_cons.
      - done.
      - destruct IH as (-> & -> & H). do 2 (split; [done|]). set_solver. }
    destruct (is_help arg) eqn:Hh.
    { rewrite bind_run. unfold console_log. rewrite emit_logged.
      unfold process_exit. split; [done|]. split; [done|].
      apply (is_help_elem arg); [done | set_solver]. }
    specialize (IH (next :: rest') input output ltac:(simpl in Hn |- *; lia)).
    destruct (parseArgs_loop (next :: rest') input output st) as [[[i o]|e|c] st'].
    + destruct IH as (-> & Hin & Hout). split; [done|]. split.
      * destruct Hin as [->|(x & -> & Hx)]; [by left|].
        right. exists x. split; [done|]. by apply adjacent_cons.
      * destruct Hout as [->|(y & -> & Hy)]; [by left|].
        right. exists y. split; [done|]. by apply adjacent_cons.
    + done.
    + destruct IH as (-> & -> & H). do 2 (split; [done|]). set_solver.
Qed.

Lemma parseArgs_unfold st :
  parseArgs st =
  match parseArgs_loop (arguments st) None None st with
  | (Ok (input, output), st') =>
    match input with
    | None | Some [] => (Throw (Error (js "Missing --input argument")), st')
    | Some input =>
      match output with
      | None | Some [] => (Throw (Error (js "Missing --output argument")), st')
      | Some output => (Ok (input, output), st')
      end
    end
  | (Throw e, st') => (Throw e, st')
  | (Exit c, st') => (Exit c, st')
  end.
Proof.
  unfold parseArgs. rewrite bind_run. unfold process_argv. cbv beta iota.
  rewrite bind_run. fold (arguments st).
  destruct (parseArgs_loop (arguments st) None None st) as [[[i o]|e|c] st']; try done.
  destruct i as [[|? ?]|]; try done. destruct o as [[|? ?]|]; done.
Qed.

(** X1.  When the arguments hold neither [--input] nor a help flag,
    parseArgs throws [Missing --input argument] (whether or not [--output]
    is given) and leaves the state as it was. *)
Theorem parseArgs_missing_input (st : state) :
  js "--input" ∉ arguments st ->
  js "--help" ∉ arguments st -> js "-h" ∉ arguments st ->
  parseArgs st = (Throw (Error (js "Missing --input argument")), st).
Proof.
  intros Hi Hh1 Hh2. rewrite parseArgs_unfold.
  pose proof (parseArgs_loop_outcome _ (arguments st) None None st (le_n _)) as H.
  destruct (parseArgs_loop (arguments st) None None st) as [[[i o]|e|c] st'].
  - destruct H as (-> & [->|(x & -> & Hx)] & _); [done|].
    apply adjacent_elem in Hx. done.
  - done.
  - destruct H as (_ & _ & [?|?]); done.
Qed.

(** X2.  When parseArgs returns, the two paths it returns are not empty,
    each stands in the arguments right after its flag, and the state is
    untouched (nothing is read, written or printed). *)
Theorem parseArgs_returns_flag_values (st st' : state) (input output : jsstring) :
  parseArgs st = (Ok (input, output), st') ->
  st' = st /\ input <> [] /\ output <> []
  /\ adjacent (js "--input") input (arguments st)
  /\ adjacent (js "--output") output (arguments st).
Proof.
  rewrite parseArgs_unfold.
  pose proof (parseArgs_loop_outcome _ (arguments st) None None st (le_n _)) as H.
  destruct (parseArgs_loop (arguments st) None None st) as [[[i o]|e|c] st1]; [|done..].
  destruct H as (-> & Hin & Hout).
  destruct i as [[|c1 i]|]; [done| |done]. destruct o as [[|c2 o]|]; [done| |done].
  intros [= <- <- <-].
  destruct Hin as [?|(x & [= <-] & Hx)]; [done|].
  destruct Hout as [?|(y & [= <-] & Hy)]; [done|]. done.
Qed.

Lemma parseArgs_exit (st st' : state) (code : Z) :
  parseArgs st = (Exit code, st') ->
  code = 0%Z /\ st' = logged [log usage] st
  /\ (js "--help" ∈ arguments st \/ js "-h" ∈ arguments st).
Proof.
  rewrite parseArgs_unfold.
  pose proof (parseArgs_loop_outcome _ (arguments st) None None st (le_n _)) as H.
  destruct (parseArgs_loop (arguments st) None None st) as [[[i o]|e|c] st1].
  - destruct i as [[|? ?]|]; try done. destruct o as [[|? ?]|]; done.
  - done.
  - intros [= <- <-]. done.
Qed.

(** X3.  parseArgs ends the process only with status 0, only when a help
    flag stands in the arguments, and after printing nothing but the usage
    line; and the only exceptions it throws are the two missing-argument
    errors. *)
Theorem parseArgs_exit_is_help (st st' : state) :
  (forall code, parseArgs st = (Exit code, st') ->
     code = 0%Z /\ st' = logged [log usage] st
     /\ (js "--help" ∈ arguments st \/ js "-h" ∈ arguments st))
  /\ (forall e, parseArgs st = (Throw e, st') ->
       st' = st /\ (e = Error (js "Missing --input argument")
                    \/ e = Error (js "Missing --output argument"))).
Proof.
  split; [intros code; apply parseArgs_exit|].
  intros e. rewrite parseArgs_unfold.
  pose proof (parseArgs_loop_outcome _ (arguments st) None None st (le_n _)) as H.
  destruct (parseArgs_loop (arguments st) None None st) as [[[i o]|e'|c] st1];
    [|done..].
  destruct H as (-> & _).
  destruct i as [[|? ?]|];
    [intros [= <- <-]; split; [reflexivity | left; reflexivity] |
    |intros [= <- <-]; split; [reflexivity | left; reflexivity]].
  destruct o as [[|? ?]|];
    [intros [= <- <-]; split; [reflexivity | right; reflexivity]
    |intros [=]
    |intros [= <- <-]; split; [reflexivity | right; reflexivity]].
Qed.

(** X24.  The word after [--input] or [--output] is taken as the value
    whatever it is: it is not looked at as a flag, so a help flag or the
    name of the other flag in that place is the path. *)
Theorem parseArgs_value_is_not_a_flag (a b : jsstring) (st : state) :
  arguments st = [js "--input"; a; js "--output"; b] ->
  a <> [] -> b <> [] ->
  parseArgs st = (Ok (a, b), st).
Proof.
  intros Hargs Ha Hb. rewrite parseArgs_unfold, Hargs.
  rewrite parseArgs_loop_cons.
  rewrite (bool_decide_eq_true_2 (js "--input" = js "--input")) by reflexivity.
  rewrite parseArgs_loop_cons.
  assert (E : bool_decide (js "--output" = js "--input") = false)
    by (vm_compute; reflexivity).
  rewrite E.
  rewrite (bool_decide_eq_true_2 (js "--output" = js "--output")) by reflexivity.
  cbn [parseArgs_loop]. unfold mret, M_ret.
  destruct a; [by destruct Ha|]. destruct b; [by destruct Hb|]. reflexivity.
Qed.

End CommandLine.

(** ** The completion client and the extractor *)

Lemma trimStart_twice s : trimStart (trimStart s) = trimStart s.
Proof.
  induction s as [|c s IH]; [done|]. simpl.
  destruct (is_trim_space c) eqn:E; [done|]. simpl. by rewrite E.
Qed.

Lemma trimStart_head s c rest : trimStart s = c :: rest -> is_trim_space c = false.
Proof.
  induction s as [|d s IH]; [done|]. simpl.
  destruct (is_trim_space d) eqn:E; [done|]. by intros [= <- <-].
Qed.

Lemma trimStart_keeps_end s c :
  is_trim_space c = false -> trimStart (s ++ [c]) = trimStart s ++ [c].
Proof.
  intros Hc. induction s as [|d s IH]; simpl; [by rewrite Hc|].
  by destruct (is_trim_space d).
Qed.

Lemma trimEnd_cons c s :
  is_trim_space c = false -> trimEnd (c :: s) = c :: trimEnd s.
Proof.
  intros Hc. unfold trimEnd. simpl rev.
  by rewrite trimStart_keeps_end, rev_app_distr.
Qed.

Lemma trimEnd_twice s : trimEnd (trimEnd s) = trimEnd s.
Proof. unfold trimEnd. by rewrite rev_involutive, trimStart_twice. Qed.

Lemma trimEnd_last s init c : trimEnd s = init ++ [c] -> is_trim_space c = false.
Proof.
  unfold trimEnd. intros H.
  assert (H' : trimStart (rev s) = c :: rev init).
  { rewrite <- (rev_involutive (trimStart (rev s))), H, rev_app_distr. done. }
  by apply trimStart_head in H'.
Qed.

Lemma trim_twice s : trim (trim s) = trim s.
Proof.
  unfold trim. destruct (trimStart s) as [|c r] eqn:E; [done|].
  pose proof (trimStart_head _ _ _ E) as Hc.
  rewrite (trimEnd_cons c r Hc). simpl trimStart. rewrite Hc.
  by rewrite (trimEnd_cons _ _ Hc), trimEnd_twice.
Qed.

Lemma trim_trimmed s : trimmed (trim s).
Proof.
  split.
  - intros c rest H. unfold trim in H.
    destruct (trimStart s) as [|d r] eqn:E; [done|].
    pose proof (trimStart_head _ _ _ E) as Hd.
    rewrite (trimEnd_cons d r Hd) in H. by injection H as <- _.
  - intros init c H. by apply trimEnd_last in H.
Qed.

Section Client.
Context {rt : Runtime}.

(** X4.  callOpenAI never writes a file and never prints; with no key or
    an empty key it throws the configuration error without sending
    anything, and with a key it sends one request, for the prompt it was
    given and carrying that key, whatever the answer is (no retry). *)
Theorem callOpenAI_sends_at_most_once (prompt : jsstring) (st : state) :
  let r := callOpenAI prompt st in
  files (snd r) = files st /\ console (snd r) = console st /\ dirs (snd r) = dirs st
  /\ match OPENAI_API_KEY st with
     | None | Some [] => fst r = Throw ConfigurationError /\ network (snd r) = network st
     | Some key => network (snd r) = network st ++ [chat_request key prompt]
     end.
Proof.
  cbv zeta. unfold callOpenAI. rewrite bind_run.
  unfold process_env_OPENAI_API_KEY. cbv beta iota.
  destruct (OPENAI_API_KEY st) as [[|k key]|]; try done.
  rewrite bind_run. unfold do_fetch. cbv beta iota.
  destruct (fetch _) as [e|ok status text]; [done|].
  destruct ok; cbn [negb]; cbv iota; [|done].
  rewrite bind_run. destruct (JSON_parse text); [done|].
  unfold mret, M_ret, lift. done.
Qed.

(** X5.  When the content of the reply is not a string (for instance
    [null]), the run fails with a TypeError in the state in which the
    reply arrived: nothing has been written. *)
Theorem non_string_reply (responseText : value) (output : jsstring) (st : state) :
  (forall s, responseText <> VStr s) ->
  process_response responseText output st = (Throw TypeError, st).
Proof.
  intros H. unfold process_response. rewrite bind_run. unfold lift.
  destruct responseText; try done. by destruct (H s).
Qed.

(** X6.  The extraction succeeds exactly when the reply holds a fenced
    [yaml] block and a fenced [json] block, in either order; and without a
    fenced [yaml] block the error is the one of the YAML block, also when
    a [json] block is present. *)
Theorem extractBlocks_succeeds_iff (reply : jsstring) :
  ((exists b, extractBlocks (VStr reply) = Ok b)
   <-> fenced_block (js "yaml") reply /\ fenced_block (js "json") reply)
  /\ (~ fenced_block (js "yaml") reply ->
      extractBlocks (VStr reply) = Throw ExtractionError_YAML).
Proof.
  unfold extractBlocks. split; [split|].
  - intros [b Hb].
    destruct (match_fence (js "yaml") reply) as [ry|] eqn:Ey; [|done].
    destruct (match_fence (js "json") reply) as [rj|] eqn:Ej; [|done].
    split.
    + apply match_fence_sound in Ey as (pre & post & ? & ? & _).
      by exists pre, (m1 ry), post.
    + apply match_fence_sound in Ej as (pre & post & ? & ? & _).
      by exists pre, (m1 rj), post.
  - intros [Hy Hj].
    apply match_fence_complete in Hy as [ry ->].
    apply match_fence_complete in Hj as [rj ->]. eauto.
  - intros Hy. apply match_fence_None in Hy. by rewrite Hy.
Qed.

(** X7.  The three texts the extraction returns have no white space at
    their two ends, and trimming them again changes nothing. *)
Theorem extractBlocks_texts_are_trimmed (reply : jsstring) (b : blocks) :
  extractBlocks (VStr reply) = Ok b ->
  trimmed (blocks_yaml b) /\ trimmed (blocks_json b) /\ trimmed (blocks_summary b)
  /\ trim (blocks_yaml b) = blocks_yaml b /\ trim (blocks_json b) = blocks_json b
  /\ trim (blocks_summary b) = blocks_summary b.
Proof.
  unfold extractBlocks.
  destruct (match_fence (js "yaml") reply) as [ry|]; [|done].
  destruct (match_fence (js "json") reply) as [rj|]; [|done].
  intros [= <-]. cbn [blocks_yaml blocks_json blocks_summary].
  repeat split; first [apply trim_trimmed | apply trim_twice].
Qed.

(** X8.  The summary file, when one is written, is written with the
    text that follows the JSON block exactly as the extraction returned
    it: the second [trim] of line 376 changes nothing; and an empty
    summary writes no file. *)
Theorem summary_file_is_the_extracted_summary (reply output : jsstring) (b : blocks) :
  extractBlocks (VStr reply) = Ok b ->
  does (write_summary (blocks_summary b) output) (Ok tt)
       (match blocks_summary b with
        | [] => []
        | _ => [(summaryPath output, blocks_summary b)]
        end).
Proof.
  intros Hb.
  assert (Hs : trim (blocks_summary b) = blocks_summary b).
  { revert Hb. unfold extractBlocks.
    destruct (match_fence (js "yaml") reply) as [ry|]; [|done].
    destruct (match_fence (js "json") reply) as [rj|]; [|done].
    intros [= <-]. apply trim_twice. }
  pose proof (write_summary_does (blocks_summary b) output) as H.
  rewrite Hs in H. exact H.
Qed.

(** X9.  The YAML block can make the validation fail at line 217 only.
    When the JSON text parses and the duration check passes: if js-yaml is
    missing, throws, or returns a tree (also one that differs from the
    JSON), validateStoryboard returns the object JSON.parse returned and
    writes no file; if js-yaml returns a structure that line 217 throws on
    (one that holds itself, as for the document [&a [*a]]),
    validateStoryboard throws that exception. *)
Theorem yaml_block_fails_at_line_217_only (yamlStr jsonStr : jsstring)
    (jsonObj : value) (st : state) :
  JSON_parse jsonStr = inr jsonObj ->
  fst (check_durations jsonObj st) = Ok tt ->
  (yaml_serialisable yamlStr ->
     exists yamlObj,
       fst (validateStoryboard yamlStr jsonStr st) = Ok (yamlObj, jsonObj)
       /\ files (snd (validateStoryboard yamlStr jsonStr st)) = files st)
  /\ (forall load e,
        yaml = Some load -> load yamlStr = inr (NotJSON e) ->
        fst (validateStoryboard yamlStr jsonStr st) = Throw e
        /\ files (snd (validateStoryboard yamlStr jsonStr st)) = files st).
Proof.
  intros Hj Hc. split.
  - intros Hser.
    destruct (validateStoryboard_cases yamlStr jsonStr jsonObj Hj)
      as [(yamlObj & _ & Hv)|[[Hc' _]|(load & e & Hl & He & _)]].
    + exists yamlObj. by destruct (does_files _ _ _ st Hv) as (-> & -> & _).
    + destruct (does_files _ _ _ st Hc') as (Hc'' & _). congruence.
    + by destruct (Hser load e).
  - intros load e Hl He.
    pose proof (validateStoryboard_not_json yamlStr jsonStr jsonObj load e Hj Hl He) as Hv.
    by destruct (does_files _ _ _ st Hv) as (-> & -> & _).
Qed.


Lemma js_add_string_l s b r : js_add (VStr s) b = Ok r -> exists t, r = VStr t.
Proof.
  unfold js_add. cbn [ToPrimitive mbind outcome_bind].
  destruct (ToPrimitive b) as [pb| |]; [|done..]. cbn [mbind outcome_bind ToString].
  destruct (ToString pb); [|done..]. cbn [mbind outcome_bind].
  intros [= <-]. eauto.
Qed.

Lemma js_add_string_r a s r : js_add a (VStr s) = Ok r -> exists t, r = VStr t.
Proof.
  unfold js_add. destruct (ToPrimitive a) as [pa| |]; [|done..].
  cbn [ToPrimitive mbind outcome_bind].
  destruct pa; cbn [mbind outcome_bind];
    repeat match goal with
    | |- context [ToString ?v] => destruct (ToString v); cbn [mbind outcome_bind]
    end;
    try done; intros [= <-]; eauto.
Qed.

Lemma sum_durations_string s items r :
  sum_durations (VStr s) items = Ok r -> exists t, r = VStr t.
Proof.
  revert s. induction items as [|x items IH]; intros s; simpl.
  - intros [= <-]. eauto.
  - destruct (get x (js "durationSec")) as [d| |]; [|done..].
    cbn [mbind outcome_bind].
    destruct (js_add (VStr s) _) as [sum'| |] eqn:E; [|done..].
    cbn [mbind outcome_bind]. apply js_add_string_l in E as [t ->]. apply IH.
Qed.

Lemma sum_durations_app sum items1 items2 :
  sum_durations sum (items1 ++ items2) =
  (sum' ← sum_durations sum items1; sum_durations sum' items2).
Proof.
  revert sum. induction items1 as [|x items1 IH]; intros sum; simpl; [done|].
  destruct (get x (js "durationSec")) as [d| |]; [|done..].
  cbn [mbind outcome_bind]. destruct (js_add sum _); [|done..].
  cbn [mbind outcome_bind]. apply IH.
Qed.

(** X11.  One slide whose [durationSec] is a string (not empty) turns the
    sum into a string: the total is then a string, and [!==] holds
    between it and every number. *)
Theorem string_duration_makes_total_a_string (sum0 : value)
    (items1 items2 : list value) (s total : value) (d : jsstring) :
  get s (js "durationSec") = Ok (VStr d) -> d <> [] ->
  sum_durations sum0 (items1 ++ s :: items2) = Ok total ->
  (exists t, total = VStr t) /\ forall x, strict_neq total (VNum x) = true.
Proof.
  intros Hs Hd. rewrite sum_durations_app.
  destruct (sum_durations sum0 items1) as [sum1| |]; [|done..].
  cbn [mbind outcome_bind]. simpl. rewrite Hs. cbn [mbind outcome_bind].
  assert (Ho : or_else (VStr d) (VNum 0%float) = VStr d).
  { unfold or_else. simpl. by destruct d. }
  rewrite Ho.
  destruct (js_add sum1 (VStr d)) as [sum2| |] eqn:E; [|done..].
  cbn [mbind outcome_bind]. apply js_add_string_r in E as [t ->].
  intros H. apply sum_durations_string in H as [t' ->].
  split; [eauto|done].
Qed.

End Client.

(** ** The component identifier and the stub *)

Lemma strip_leading_non_letters_head s :
  strip_leading_non_letters s = []
  \/ exists c rest, strip_leading_non_letters s = c :: rest /\ is_alpha c = true.
Proof.
  induction s as [|c s IH]; [by left|]. simpl.
  destruct (is_alpha c) eqn:E; [right; eauto | exact IH].
Qed.

Lemma is_alpha_upper c :
  is_alpha c = true ->
  c < 128 /\ is_line_terminator c = false /\ 65 <= ascii_upper c <= 90.
Proof.
  unfold is_alpha, is_line_terminator, ascii_upper. intros H.
  apply orb_true_iff in H as [H|H]; apply andb_true_iff in H as [H1 H2];
    apply N.leb_le in H1, H2.
  - split; [lia|]. split.
    + repeat (apply orb_false_iff; split); apply N.eqb_neq; lia.
    + assert ((97 <=? c) && (c <=? 122) = true) as ->
        by (apply andb_true_iff; split; apply N.leb_le; lia). lia.
  - split; [lia|]. split.
    + repeat (apply orb_false_iff; split); apply N.eqb_neq; lia.
    + assert ((97 <=? c) && (c <=? 122) = false) as ->
        by (apply andb_false_iff; left; apply N.leb_gt; lia). lia.
Qed.

Lemma is_digit_alnum c : is_digit c = true -> is_alnum c = true /\ is_alpha c = false.
Proof.
  unfold is_digit, is_alnum, is_alpha. intros H. rewrite H.
  apply andb_true_iff in H as [H1 H2]. apply N.leb_le in H1, H2.
  split; [apply orb_true_r|].
  apply orb_false_iff; split; apply andb_false_iff.
  - left. apply N.leb_gt. lia.
  - left. apply N.leb_gt. lia.
Qed.

Section Identifier.
Context {rt : Runtime}.

(** X12.  Whatever the videoId, the identifier camelCase returns is empty
    or starts with an upper-case ASCII letter: never with a digit or a
    symbol.  (The case mapping of the host is only assumed to be the usual
    one on ASCII.) *)
Theorem camelCase_starts_with_a_capital (str : jsstring) :
  (forall c, c < 128 -> toUpperCase [c] = [ascii_upper c]) ->
  camelCase str = []
  \/ exists c rest, camelCase str = c :: rest /\ 65 <= c <= 90.
Proof.
  intros Hup. unfold camelCase.
  destruct (strip_leading_non_letters_head (replace_separators 0 str))
    as [->|(c & rest & -> & Hc)]; [by left|].
  right. apply is_alpha_upper in Hc as (Hlt & Hlt' & Hrange).
  unfold upper_first. rewrite Hlt', (Hup c Hlt). eauto.
Qed.

Lemma replace_separators_alnum s :
  Forall (fun c => is_alnum c = true) s -> replace_separators 0 s = s.
Proof.
  induction 1 as [|c s Hc _ IH]; [done|].
  simpl. by rewrite Hc, IH.
Qed.

(** X13.  For a videoId made of digits only, camelCase returns the empty
    string: no identifier is left. *)
Theorem camelCase_of_digits_is_empty (str : jsstring) :
  Forall (fun c => is_digit c = true) str -> camelCase str = [].
Proof.
  intros H. unfold camelCase. rewrite replace_separators_alnum.
  2:{ eapply Forall_impl; [exact H|]. intros c Hc. by apply is_digit_alnum in Hc as [? _]. }
  assert (Hs : strip_leading_non_letters str = []).
  { induction H as [|c s Hc _ IH]; [done|]. simpl.
    apply is_digit_alnum in Hc as [_ ->]. exact IH. }
  by rewrite Hs.
Qed.

Lemma get_Ok_object v k r : get v k = Ok r -> truthy r = true -> truthy v = true.
Proof. destruct v; simpl; try done; by intros [= <-]. Qed.

(** X14.  A [videoId] that is truthy but not a string (a number, [true],
    an array, an object) makes writeVideoTsx throw a TypeError before it
    writes anything. *)
Theorem non_string_videoId_throws (storyboard meta videoId : value) (outDir : jsstring) :
  get storyboard (js "meta") = Ok meta ->
  get meta (js "videoId") = Ok videoId ->
  truthy videoId = true -> (forall s, videoId <> VStr s) ->
  does (writeVideoTsx storyboard outDir) (Throw TypeError) [].
Proof.
  intros Hm Hv Ht Hs.
  pose proof (get_Ok_object _ _ _ Hv Ht) as Htm.
  assert (Hr : render_tsx meta = Throw TypeError).
  { unfold render_tsx.
    destruct (get_vot meta (js "defaultFps")) as [[fps0 ->]| ->]; [|done].
    cbn [mbind outcome_bind]. rewrite Hv. cbn [mbind outcome_bind].
    destruct (get_vot meta (js "defaultResolution")) as [[res ->]| ->]; [|done].
    cbn [mbind outcome_bind].
    destruct (get_opt_vot res (js "width")) as [[w ->]| ->]; [|done].
    cbn [mbind outcome_bind].
    destruct (get_opt_vot res (js "height")) as [[h ->]| ->]; [|done].
    cbn [mbind outcome_bind].
    destruct (get_vot meta (js "totalDurationSec")) as [[tds ->]| ->]; [|done].
    cbn [mbind outcome_bind].
    destruct (js_mul_vot (or_else tds (VNum 0%float)) (or_else fps0 (VNum 30%float)))
      as [[tf ->]| ->]; [|done].
    cbn [mbind outcome_bind].
    assert (Hov : or_else videoId (VStr (js "generated-video")) = videoId)
      by (unfold or_else; by rewrite Ht).
    cbv zeta. rewrite Hov.
    destruct videoId; try done. by destruct (Hs s). }
  unfold writeVideoTsx. rewrite Hm. dstep. rewrite Htm. cbn [negb]. cbv iota.
  rewrite Hr. dthrow.
Qed.

(** X15.  For a [meta] object that has none of the four keys, the stub is
    rendered with the defaults: the component of [generated-video], 0
    frames, 30 frames a second, 1920 by 1080; and that text is what
    writeVideoTsx writes to Video.tsx. *)
Theorem writeVideoTsx_defaults (storyboard : value) (props : list (jsstring * value))
    (outDir : jsstring) :
  get storyboard (js "meta") = Ok (VObj props) ->
  lookup_prop (js "defaultFps") props = None ->
  lookup_prop (js "videoId") props = None ->
  lookup_prop (js "defaultResolution") props = None ->
  lookup_prop (js "totalDurationSec") props = None ->
  does (writeVideoTsx storyboard outDir) (Ok tt)
       [(tsxPath outDir,
         tsx_text (camelCase (js "generated-video")) (Number_toString 0%float)
                  (Number_toString 30%float) (Number_toString 1920%float)
                  (Number_toString 1080%float))].
Proof.
  intros Hm H1 H2 H3 H4.
  eapply writeVideoTsx_does_Ok; [exact Hm | done |].
  unfold render_tsx, get. rewrite H1, H2, H3, H4. reflexivity.
Qed.

(** X16.  writeVideoTsx reads nothing from the state, never ends the
    process, throws nothing but a TypeError, and writes no file other than
    Video.tsx, which it writes only when it returns normally. *)
Theorem writeVideoTsx_writes_only_the_stub (storyboard : value) (outDir : jsstring) :
  exists o ws,
    does (writeVideoTsx storyboard outDir) o ws
    /\ (o = Ok tt \/ o = Throw TypeError)
    /\ (ws = [] \/ exists tsx, ws = [(tsxPath outDir, tsx)] /\ o = Ok tt).
Proof.
  destruct (writeVideoTsx_cases storyboard outDir)
    as [(meta & _ & _ & H)|[H|(meta & tsx & _ & _ & _ & H)]].
  - exists (Ok tt), []. auto.
  - exists (Throw TypeError), []. auto.
  - exists (Ok tt), [(tsxPath outDir, tsx)]. split; [done|]. split; [auto|].
    right. eauto.
Qed.

End Identifier.

(** ** The placeholders *)


Section Placeholders.
Context {rt : Runtime}.

(** X17.  When a slide stops the placeholder writer, because it cannot
    be named (a [null] slide, an id that cannot be printed) or because the
    file system refuses its path (the id [a/b]: there is no such
    directory), the writer throws at that slide, a TypeError or the error
    of the file system: the placeholders of the slides before it, which
    the file system accepted, have been written, those of the slides after
    it have not. *)
Theorem placeholders_stop_at_a_bad_slide (storyboard bad : value) (outDir : jsstring)
    (good rest : list value) (paths : list jsstring) :
  get storyboard (js "slides") = Ok (VArr (good ++ bad :: rest)) ->
  placeholder_paths outDir good = Ok paths ->
  Forall accepted paths ->
  ((forall p, placeholder_path outDir bad <> Ok p) ->
     does (createVoiceoverPlaceholders storyboard outDir) (Throw TypeError)
          (List.map (fun p => (p, [])) paths))
  /\ (forall p e,
        placeholder_path outDir bad = Ok p -> fs_open_error p = Some e ->
        does (createVoiceoverPlaceholders storyboard outDir) (Throw e)
             (List.map (fun p => (p, [])) paths)).
Proof.
  intros Hs Hg Hacc.
  pose proof (createVoiceoverPlaceholders_does _ outDir _ Hs) as Hc.
  rewrite (placeholders_run_stop _ _ _ _ _ Hg Hacc) in Hc.
  split.
  - intros Hb.
    destruct (placeholder_path_vot outDir bad) as [[p Hp]|Hp]; [by destruct (Hb p)|].
    by rewrite Hp in Hc.
  - intros p e Hp He. by rewrite Hp, He in Hc.
Qed.

(** X18.  Slides that have no [id] all get the same placeholder,
    [undefined.mp3]. *)
Theorem slides_without_id_share_a_file (outDir : jsstring) (items : list value) :
  Forall (fun s => exists props, s = VObj props /\ lookup_prop (js "id") props = None) items ->
  exists paths,
    placeholder_paths outDir items = Ok paths
    /\ length paths = length items
    /\ forall p, p ∈ paths -> p = placeholder_of outDir (js "undefined").
Proof.
  induction 1 as [|s items (props & -> & Hid) _ (paths & IH & Hlen & Hall)].
  - exists []. split; [done|]. split; [done|]. intros p Hp. by apply elem_of_nil in Hp.
  - exists (placeholder_of outDir (js "undefined") :: paths).
    split; [|split].
    + simpl. unfold placeholder_path, get. rewrite Hid. cbn [default mbind outcome_bind ToString].
      by rewrite IH.
    + simpl. by rewrite Hlen.
    + intros p Hp. apply elem_of_cons in Hp as [->|Hp]; auto.
Qed.


End Placeholders.

(** ** The run as a whole *)

Lemma fails_only_mono {A} (Q Q' : exn -> Prop) (c : M A) :
  (forall e, Q e -> Q' e) -> fails_only Q c -> fails_only Q' c.
Proof.
  intros HQ (o & ws & Hd & Ho). exists o, ws. split; [done|].
  destruct o; auto.
Qed.

Lemma fails_only_bind {A B} (Q : exn -> Prop) (m : M A) (f : A -> M B) :
  fails_only Q m -> (forall a, fails_only Q (f a)) -> fails_only Q (m ≫= f).
Proof.
  intros ([a|e|c] & ws & Hm & Ho) Hf; [|exists (Throw e), ws|done].
  - destruct (Hf a) as (o' & ws' & Hfa & Ho'). exists o', (ws ++ ws').
    split; [by eapply does_bind|done].
  - split; [by apply does_bind_Throw|done].
Qed.

Lemma fails_only_Ok {A} (Q : exn -> Prop) (c : M A) a ws :
  does c (Ok a) ws -> fails_only Q c.
Proof. intros H. by exists (Ok a), ws. Qed.

Lemma fails_only_Throw {A} (Q : exn -> Prop) (c : M A) e ws :
  Q e -> does c (Throw e) ws -> fails_only Q c.
Proof. intros HQ H. by exists (Throw e), ws. Qed.

Lemma GetSubstitution_plain_prefix (matched preceding following a templ : jsstring) :
  36 ∉ a ->
  GetSubstitution matched preceding following (a ++ templ)
  = a ++ GetSubstitution matched preceding following templ.
Proof.
  induction a as [|c a IH]; intros Ha; [done|].
  apply not_elem_of_cons in Ha as [Hc Ha]. rewrite <- app_comm_cons.
  cbn [GetSubstitution]. apply not_eq_sym, N.eqb_neq in Hc. rewrite Hc.
  by rewrite IH.
Qed.

Lemma GetSubstitution_pattern (matched preceding following a b : jsstring) :
  36 ∉ a -> has_dollar_pattern b = false ->
  GetSubstitution matched preceding following (a ++ js "$&" ++ b) = a ++ matched ++ b
  /\ GetSubstitution matched preceding following (a ++ js "$$" ++ b) = a ++ js "$" ++ b
  /\ GetSubstitution matched preceding following (a ++ js "$`" ++ b) = a ++ preceding ++ b
  /\ GetSubstitution matched preceding following (a ++ js "$'" ++ b) = a ++ following ++ b.
Proof.
  intros Ha Hb.
  change (js "$&") with [36; 38]. change (js "$$") with [36; 36].
  change (js "$`") with [36; 96]. change (js "$'") with [36; 39].
  change (js "$") with [36].
  rewrite !(GetSubstitution_plain_prefix _ _ _ a) by exact Ha.
  cbn [app GetSubstitution N.eqb Pos.eqb].
  rewrite (GetSubstitution_plain _ _ _ b Hb).
  split; [reflexivity|]. split; [reflexivity|]. split; reflexivity.
Qed.

(** X20.  In a research text the four replacement patterns are expanded
    by [replace] instead of being forwarded: [$&] becomes the placeholder
    token, [$$] a single dollar, [$`] the part of the template that stands
    before the placeholder, [$'] the part that stands after it. *)
Theorem compose_prompt_expands_dollar_patterns (a b : jsstring) :
  36 ∉ a -> has_dollar_pattern b = false ->
  compose_prompt (a ++ js "$&" ++ b) = PROMPT_PREFIX ++ (a ++ PLACEHOLDER ++ b) ++ PROMPT_SUFFIX
  /\ compose_prompt (a ++ js "$$" ++ b) = PROMPT_PREFIX ++ (a ++ js "$" ++ b) ++ PROMPT_SUFFIX
  /\ compose_prompt (a ++ js "$`" ++ b)
     = PROMPT_PREFIX ++ (a ++ PROMPT_PREFIX ++ b) ++ PROMPT_SUFFIX
  /\ compose_prompt (a ++ js "$'" ++ b)
     = PROMPT_PREFIX ++ (a ++ PROMPT_SUFFIX ++ b) ++ PROMPT_SUFFIX.
Proof.
  intros Ha Hb. unfold compose_prompt, replace_string. rewrite MASTER_PROMPT_split.
  destruct (GetSubstitution_pattern PLACEHOLDER PROMPT_PREFIX PROMPT_SUFFIX a b Ha Hb)
    as (H1 & H2 & H3 & H4).
  rewrite H1, H2, H3, H4.
  split; [reflexivity|]. split; [reflexivity|]. split; reflexivity.
Qed.

Section Run.
Context {rt : Runtime}.

Lemma extractBlocks_errors v :
  match extractBlocks v with
  | Ok _ => True
  | Throw e => response_error e
  | Exit _ => False
  end.
Proof.
  unfold extractBlocks, response_error. destruct v; try (left; reflexivity).
  destruct (match_fence (js "yaml") s); [|right; left; reflexivity].
  destruct (match_fence (js "json") s); [exact I|right; right; left; reflexivity].
Qed.

Lemma validateStoryboard_fails_only yamlStr jsonStr :
  fails_only response_error (validateStoryboard yamlStr jsonStr).
Proof.
  destruct (JSON_parse jsonStr) as [m|jsonObj] eqn:Hj.
  - exists (Throw (ParseError m)), []. split.
    + unfold validateStoryboard, parse_json. rewrite Hj.
      destruct (load_yaml_does yamlStr) as (yamlObj & Hy & _).
      eapply does_bind'; [exact Hy | cbv beta | reflexivity].
      apply does_bind_Throw, does_throw.
    + right; right; right; left. by exists m.
  - destruct (validateStoryboard_cases yamlStr jsonStr jsonObj Hj)
      as [(yamlObj & _ & Hv)|[[_ Hv]|(load & e & Hl & He & Hv)]].
    + by exists (Ok (yamlObj, jsonObj)), [].
    + exists (Throw TypeError), []. split; [exact Hv | by left].
    + exists (Throw e), []. split; [exact Hv|].
      do 4 right. left. by exists load, yamlStr.
Qed.

Lemma process_response_fails_only (responseText : value) (output : jsstring) :
  fails_only response_error (process_response responseText output).
Proof.
  unfold process_response.
  pose proof (extractBlocks_errors responseText) as He.
  destruct (extractBlocks responseText) as [b|e|c]; [| |done].
  2:{ eapply fails_only_Throw; [exact He|]. dthrow. }
  apply fails_only_bind; [eapply fails_only_Ok, does_lift|]. intros b'.
  apply fails_only_bind; [eapply fails_only_Ok, write_serializations_does|]. intros _.
  apply fails_only_bind; [apply validateStoryboard_fails_only|].
  intros [yamlObj jsonObj].
  apply fails_only_bind; [|intros; eapply fails_only_Ok, does_emit].
  unfold emit_derived. apply fails_only_bind.
  { destruct (writeVideoTsx_cases jsonObj output)
      as [(meta & _ & _ & H)|[H|(meta & tsx & _ & _ & _ & H)]].
    - by eapply fails_only_Ok.
    - eapply fails_only_Throw; [|exact H]. by left.
    - by eapply fails_only_Ok. }
  intros _. apply fails_only_bind.
  { destruct (createVoiceoverPlaceholders_cases jsonObj output) as (o & ws & Hd & Ho).
    exists o, ws. split; [exact Hd|]. destruct o as [?|e|?]; [done| |done].
    destruct Ho as [->|Hp]; [by left | by do 5 right]. }
  intros _. eapply fails_only_Ok, write_summary_does.
Qed.

(** X21.  Once the reply has arrived the rest of the run depends on the
    reply and the environment alone: its outcome is the same from every
    state of the process, it sends nothing, it never ends the process by
    itself, and the only exceptions it can throw are a TypeError, the two
    extraction errors, the parse error, the exception of line 217 on a
    structure that js-yaml returned, and the error with which the file
    system refuses a path. *)
Theorem process_response_errors (responseText : value) (output : jsstring) (st : state) :
  match fst (process_response responseText output st) with
  | Ok _ => True
  | Throw e => response_error e
  | Exit _ => False
  end
  /\ network (snd (process_response responseText output st)) = network st
  /\ forall st2, fst (process_response responseText output st2)
                = fst (process_response responseText output st).
Proof.
  destruct (process_response_fails_only responseText output) as (o & ws & Hd & Ho).
  destruct (does_files _ _ _ st Hd) as (-> & _ & Hn).
  split; [exact Ho|]. split; [exact Hn|].
  intros st2. by destruct (does_files _ _ _ st2 Hd) as (-> & _).
Qed.

(** X22.  When the input file does not exist the pipeline fails with the
    error of the read, after the output directory has been made and before
    anything is printed, sent or written. *)
Theorem missing_input_file (input output : jsstring) (st : state) :
  files st !! input = None ->
  exists st',
    pipeline input output st = (Throw (SystemError (js "ENOENT")), st')
    /\ dirs st' = {[ output ]} ∪ dirs st
    /\ files st' = files st /\ network st' = network st /\ console st' = console st.
Proof.
  intros Hin. unfold pipeline, obtain_response. mstep. cbn [files]. rewrite Hin.
  eexists. split; [reflexivity|]. done.
Qed.

Lemma get0_vot v : value_or_TypeError (get0 v).
Proof. destruct v; simpl; auto with vot. Qed.

Lemma callOpenAI_no_exit prompt st c : fst (callOpenAI prompt st) <> Exit c.
Proof.
  unfold callOpenAI. rewrite bind_run.
  unfold process_env_OPENAI_API_KEY. cbv beta iota.
  destruct (OPENAI_API_KEY st) as [[|k key]|]; try done.
  rewrite bind_run. unfold do_fetch. cbv beta iota.
  destruct (fetch _) as [e|ok status text]; [done|].
  destruct ok; cbn [negb]; cbv iota; [|done].
  rewrite bind_run. destruct (JSON_parse text); [done|].
  unfold mret, M_ret.
  match goal with
  | |- context [lift ?o] => assert (Hv : value_or_TypeError o)
  end.
  { apply vot_bind; [apply get_vot|]. intros choices.
    apply vot_bind; [apply get0_vot|]. intros choice.
    apply vot_bind; [apply get_vot|]. intros message. apply get_vot. }
  unfold lift. destruct Hv as [[a ->]| ->]; cbn [fst]; discriminate.
Qed.

Lemma no_exit_bind {A B} (m : M A) (f : A -> M B) :
  (forall st c, fst (m st) <> Exit c) -> (forall a st c, fst (f a st) <> Exit c) ->
  forall st c, fst ((m ≫= f) st) <> Exit c.
Proof.
  intros Hm Hf st c. rewrite bind_run. specialize (Hm st).
  destruct (m st) as [[a|e|c'] st']; [apply Hf | discriminate |].
  exfalso. by apply (Hm c').
Qed.

Lemma no_exit_fails_only {A} (Q : exn -> Prop) (c : M A) :
  fails_only Q c -> forall st code, fst (c st) <> Exit code.
Proof.
  intros (o & ws & Hd & Ho) st code.
  destruct (does_files _ _ _ st Hd) as (-> & _). by destruct o.
Qed.

Lemma pipeline_no_exit input output st c : fst (pipeline input output st) <> Exit c.
Proof.
  revert st c. unfold pipeline. apply no_exit_bind.
  - unfold obtain_response.
    apply no_exit_bind; [intros; unfold mkdirSync; cbn [fst]; discriminate|]. intros _.
    apply no_exit_bind.
    { intros st c. unfold readFileSync. destruct (files st !! input); discriminate. }
    intros research. cbv zeta.
    apply no_exit_bind; [intros; unfold console_log, emit; cbn [fst]; discriminate|].
    intros _. apply no_exit_bind; [intros; apply callOpenAI_no_exit|]. intros r.
    apply no_exit_bind; [intros; unfold console_log, emit; cbn [fst]; discriminate|].
    intros _ st c. unfold mret, M_ret. cbn [fst]. discriminate.
  - intros r. eapply no_exit_fails_only, process_response_fails_only.
Qed.

(** X23.  The script ends in one of three ways: normally when [main]
    returns; with status 0, which only a help flag causes; or with status
    1 when [main] throws, after printing the exception as its last line
    and without touching the files [main] left. *)
Theorem script_exit_status (st : state) :
  (fst (script st) = Ok tt /\ fst (main st) = Ok tt)
  \/ (fst (script st) = Exit 0
      /\ (js "--help" ∈ arguments st \/ js "-h" ∈ arguments st))
  \/ (fst (script st) = Exit 1
      /\ exists e, fst (main st) = Throw e
           /\ console (snd (script st)) = console (snd (main st)) ++ [error e]
           /\ files (snd (script st)) = files (snd (main st))).
Proof.
  unfold script.
  destruct (main st) as [[[]|e|c] st1] eqn:Em.
  - by left.
  - right; right. split; [done|]. exists e. done.
  - right; left. revert Em. unfold main. rewrite bind_run.
    destruct (parseArgs st) as [[[input output]|e|c'] st2] eqn:Ep.
    + intros Em. pose proof (pipeline_no_exit input output st2 c) as H.
      rewrite Em in H. done.
    + done.
    + intros [= -> ->]. apply parseArgs_exit in Ep as (-> & _ & H). done.
Qed.

(** X25.  When the service answers with a status that is not ok, the run
    fails with the service error that carries the status and the body of
    the answer: one request has been sent, one line printed, and no file
    written. *)
Theorem service_error_stops_the_run (input output research key text : jsstring)
    (status : float) (st : state) :
  files st !! input = Some research ->
  OPENAI_API_KEY st = Some key -> key <> [] ->
  fetch (chat_request key (compose_prompt research)) = Response false status text ->
  exists st',
    pipeline input output st = (Throw (ServiceError (Number_toString status) text), st')
    /\ files st' = files st
    /\ network st' = network st ++ [chat_request key (compose_prompt research)]
    /\ console st' = console st ++ [log (js "[storyboard_tool] Sending prompt to OpenAI...")].
Proof.
  intros Hin Hkey Hne Hf.
  unfold pipeline, obtain_response. mstep.
  cbn [files]. rewrite Hin. mstep.
  unfold callOpenAI. mstep. cbn [OPENAI_API_KEY]. rewrite Hkey.
  destruct key as [|k key]; [by destruct Hne|].
  mstep. unfold do_fetch. mstep. rewrite Hf. cbn [negb]. mstep.
  eexists. split; [reflexivity|].
  split; [reflexivity|]. split; reflexivity.
Qed.

End Run.

(** ** The further properties at concrete inputs *)

Lemma parseArgs_missing_input_witness :
  parseArgs (Cases.state_with_args [js "--output"; js "out"])
  = (Throw (Error (js "Missing --input argument")),
     Cases.state_with_args [js "--output"; js "out"]).
Proof.
  apply (parseArgs_missing_input (Cases.state_with_args [js "--output"; js "out"]));
    apply (bool_decide_unpack _); vm_compute; exact I.
Defined.

Lemma parseArgs_returns_flag_values_witness :
  Sample.state0 = Sample.state0 /\ js "research.md" <> [] /\ js "out" <> []
  /\ adjacent (js "--input") (js "research.md") (arguments Sample.state0)
  /\ adjacent (js "--output") (js "out") (arguments Sample.state0).
Proof.
  apply (parseArgs_returns_flag_values Sample.state0 Sample.state0).
  vm_compute. reflexivity.
Defined.

Lemma parseArgs_exit_is_help_witness :
  let st := Cases.state_with_args [js "--input"; js "research.md"; js "-h"] in
  0%Z = 0%Z /\ logged [log usage] st = logged [log usage] st
  /\ (js "--help" ∈ arguments st \/ js "-h" ∈ arguments st).
Proof.
  intros st.
  apply (proj1 (parseArgs_exit_is_help st (logged [log usage] st)) 0%Z).
  vm_compute. reflexivity.
Defined.

Lemma parseArgs_value_is_not_a_flag_witness :
  parseArgs (Cases.state_with_args [js "--input"; js "--help"; js "--output"; js "--input"])
  = (Ok (js "--help", js "--input"),
     Cases.state_with_args [js "--input"; js "--help"; js "--output"; js "--input"]).
Proof.
  apply parseArgs_value_is_not_a_flag;
    [reflexivity | vm_compute; discriminate | vm_compute; discriminate].
Defined.

Lemma non_string_reply_witness :
  process_response (rt := Sample.broken_runtime) VNull (js "out") Sample.state0
  = (Throw TypeError, Sample.state0).
Proof.
  apply (non_string_reply (rt := Sample.broken_runtime)). intros s. discriminate.
Defined.

Lemma extractBlocks_texts_are_trimmed_witness :
  let b := Sample.scenario_blocks 50%float in
  trimmed (blocks_yaml b) /\ trimmed (blocks_json b) /\ trimmed (blocks_summary b)
  /\ trim (blocks_yaml b) = blocks_yaml b /\ trim (blocks_json b) = blocks_json b
  /\ trim (blocks_summary b) = blocks_summary b.
Proof.
  intros b.
  apply (extractBlocks_texts_are_trimmed (Sample.scenario_reply 50%float) b).
  vm_compute. reflexivity.
Defined.

Lemma summary_file_is_the_extracted_summary_witness :
  let rt := Sample.scenario_runtime 50%float in
  let b := Sample.scenario_blocks 50%float in
  does (write_summary (rt := rt) (blocks_summary b) (js "out")) (Ok tt)
       (match blocks_summary b with
        | [] => []
        | _ => [(summaryPath (rt := rt) (js "out"), blocks_summary b)]
        end).
Proof.
  intros rt b.
  apply (summary_file_is_the_extracted_summary (rt := rt)
           (Sample.scenario_reply 50%float) (js "out") b).
  vm_compute. reflexivity.
Defined.

Lemma yaml_block_fails_at_line_217_only_witness :
  let rt := Sample.scenario_runtime 50%float in
  let jsonStr := Sample.stringify (scenario 50%float) in
  let alias := Cases.alias_runtime in
  (exists yamlObj,
     fst (validateStoryboard (rt := rt) (js "meta: [") jsonStr Sample.state0)
       = Ok (yamlObj, scenario 50%float)
     /\ files (snd (validateStoryboard (rt := rt) (js "meta: [") jsonStr Sample.state0))
        = files Sample.state0)
  /\ fst (validateStoryboard (rt := alias) (js "&a [*a]") (js "{}") Sample.state0)
     = Throw TypeError
  /\ files (snd (validateStoryboard (rt := alias) (js "&a [*a]") (js "{}") Sample.state0))
     = files Sample.state0.
Proof.
  intros rt jsonStr alias. split.
  - apply (proj1 (yaml_block_fails_at_line_217_only (rt := rt) (js "meta: [") jsonStr
                    (scenario 50%float) Sample.state0
                    ltac:(vm_compute; reflexivity) ltac:(vm_compute; reflexivity))).
    apply sample_yaml_serialisable.
  - exact (proj2 (yaml_block_fails_at_line_217_only (rt := alias) (js "&a [*a]") (js "{}")
                    (VObj []) Sample.state0
                    ltac:(vm_compute; reflexivity) ltac:(vm_compute; reflexivity))
             (fun _ => inr (NotJSON TypeError)) TypeError eq_refl eq_refl).
Defined.


Lemma string_duration_makes_total_a_string_witness :
  (exists t, VStr (js "2020") = VStr t)
  /\ forall x, strict_neq (VStr (js "2020")) (VNum x) = true.
Proof.
  apply (string_duration_makes_total_a_string (rt := Sample.broken_runtime)
           (VNum 0%float) [slide (js "intro") 20%float] [] Cases.string_duration
           (VStr (js "2020")) (js "20"));
    [vm_compute; reflexivity | vm_compute; discriminate | vm_compute; reflexivity].
Defined.

Lemma camelCase_starts_with_a_capital_witness :
  let rt := Sample.broken_runtime in
  camelCase (rt := rt) (js "3-ways-ai-helps") = []
  \/ exists c rest, camelCase (rt := rt) (js "3-ways-ai-helps") = c :: rest /\ 65 <= c <= 90.
Proof.
  intros rt. apply (camelCase_starts_with_a_capital (rt := rt)).
  intros c Hc. reflexivity.
Defined.

Lemma camelCase_of_digits_is_empty_witness :
  camelCase (rt := Sample.broken_runtime) [50; 48; 50; 52] = [].
Proof.
  apply (camelCase_of_digits_is_empty (rt := Sample.broken_runtime)).
  repeat (apply Forall_cons_2; [vm_compute; reflexivity|]). apply Forall_nil_2.
Defined.

Lemma non_string_videoId_throws_witness :
  does (writeVideoTsx (rt := Sample.broken_runtime) Cases.numeric_videoId (js "out"))
       (Throw TypeError) [].
Proof.
  apply (non_string_videoId_throws (rt := Sample.broken_runtime) Cases.numeric_videoId
           (VObj [(js "videoId", VNum 42%float)]) (VNum 42%float) (js "out"));
    [vm_compute; reflexivity | vm_compute; reflexivity | vm_compute; reflexivity
    |intros s; discriminate].
Defined.

Lemma writeVideoTsx_defaults_witness :
  let rt := Sample.broken_runtime in
  does (writeVideoTsx (rt := rt) Sample.duplicate_ids (js "out")) (Ok tt)
       [(tsxPath (rt := rt) (js "out"),
         tsx_text (camelCase (rt := rt) (js "generated-video"))
                  (Number_toString (Runtime := rt) 0%float)
                  (Number_toString (Runtime := rt) 30%float)
                  (Number_toString (Runtime := rt) 1920%float)
                  (Number_toString (Runtime := rt) 1080%float))].
Proof.
  intros rt.
  apply (writeVideoTsx_defaults (rt := rt) Sample.duplicate_ids [] (js "out"));
    vm_compute; reflexivity.
Defined.

Lemma placeholders_stop_at_a_bad_slide_witness :
  let rt := Sample.broken_runtime in
  does (createVoiceoverPlaceholders (rt := rt) Cases.null_slide (js "out")) (Throw TypeError)
       (List.map (fun p => (p, [])) [placeholder_of (rt := rt) (js "out") (js "intro")])
  /\ does (createVoiceoverPlaceholders (rt := rt) Cases.nested_id (js "out"))
          (Throw (SystemError (js "ENOENT")))
          (List.map (fun p => (p, [])) [placeholder_of (rt := rt) (js "out") (js "intro")]).
Proof.
  intros rt.
  assert (Hacc : Forall (accepted (rt := rt))
                   [placeholder_of (rt := rt) (js "out") (js "intro")]).
  { apply Forall_cons_2; [vm_compute; reflexivity | apply Forall_nil_2]. }
  split.
  - apply (proj1 (placeholders_stop_at_a_bad_slide (rt := rt) Cases.null_slide VNull
                    (js "out") [slide (js "intro") 20%float] [slide (js "outro") 15%float]
                    [placeholder_of (rt := rt) (js "out") (js "intro")]
                    ltac:(vm_compute; reflexivity) ltac:(vm_compute; reflexivity) Hacc)).
    intros p. vm_compute. discriminate.
  - apply (proj2 (placeholders_stop_at_a_bad_slide (rt := rt) Cases.nested_id
                    (slide (js "a/b") 25%float)
                    (js "out") [slide (js "intro") 20%float] [slide (js "outro") 15%float]
                    [placeholder_of (rt := rt) (js "out") (js "intro")]
                    ltac:(vm_compute; reflexivity) ltac:(vm_compute; reflexivity) Hacc)
             (placeholder_of (rt := rt) (js "out") (js "a/b")));
      vm_compute; reflexivity.
Defined.

Lemma slides_without_id_share_a_file_witness :
  let rt := Sample.broken_runtime in
  exists paths,
    placeholder_paths (rt := rt) (js "out") [Cases.anonymous; Cases.anonymous] = Ok paths
    /\ length paths = length [Cases.anonymous; Cases.anonymous]
    /\ forall p, p ∈ paths -> p = placeholder_of (rt := rt) (js "out") (js "undefined").
Proof.
  intros rt. apply (slides_without_id_share_a_file (rt := rt)).
  repeat (apply Forall_cons_2;
          [exists [(js "title", VStr (js "untitled"))];
           split; [reflexivity | vm_compute; reflexivity]|]).
  apply Forall_nil_2.
Defined.


Lemma compose_prompt_expands_dollar_patterns_witness :
  let a := js "Costs: " in
  let b := js "5 per month" in
  compose_prompt (a ++ js "$&" ++ b) = PROMPT_PREFIX ++ (a ++ PLACEHOLDER ++ b) ++ PROMPT_SUFFIX
  /\ compose_prompt (a ++ js "$$" ++ b) = PROMPT_PREFIX ++ (a ++ js "$" ++ b) ++ PROMPT_SUFFIX
  /\ compose_prompt (a ++ js "$`" ++ b)
     = PROMPT_PREFIX ++ (a ++ PROMPT_PREFIX ++ b) ++ PROMPT_SUFFIX
  /\ compose_prompt (a ++ js "$'" ++ b)
     = PROMPT_PREFIX ++ (a ++ PROMPT_SUFFIX ++ b) ++ PROMPT_SUFFIX.
Proof.
  intros a b. apply (compose_prompt_expands_dollar_patterns a b).
  - apply (bool_decide_unpack _). vm_compute. exact I.
  - vm_compute. reflexivity.
Defined.

Lemma missing_input_file_witness :
  let rt := Sample.broken_runtime in
  exists st',
    pipeline (rt := rt) (js "missing.md") (js "out") Sample.state0
      = (Throw (SystemError (js "ENOENT")), st')
    /\ dirs st' = {[ js "out" ]} ∪ dirs Sample.state0
    /\ files st' = files Sample.state0 /\ network st' = network Sample.state0
    /\ console st' = console Sample.state0.
Proof.
  intros rt. apply (missing_input_file (rt := rt) (js "missing.md") (js "out") Sample.state0).
  vm_compute. reflexivity.
Defined.

Lemma service_error_stops_the_run_witness :
  let rt := Cases.overloaded_runtime in
  let request := chat_request (rt := rt) (js "sk-test")
                   (compose_prompt (js "AI helps in three ways.")) in
  exists st',
    pipeline (rt := rt) (js "research.md") (js "out") Sample.state0
      = (Throw (ServiceError (Number_toString (Runtime := rt) 503%float) (js "overloaded")), st')
    /\ files st' = files Sample.state0
    /\ network st' = network Sample.state0 ++ [request]
    /\ console st' = console Sample.state0
                     ++ [log (js "[storyboard_tool] Sending prompt to OpenAI...")].
Proof.
  intros rt request.
  apply (service_error_stops_the_run (rt := rt) (js "research.md") (js "out")
           (js "AI helps in three ways.") (js "sk-test") (js "overloaded") 503%float
           Sample.state0);
    [vm_compute; reflexivity | reflexivity | vm_compute; discriminate | reflexivity].
Defined.
